(** * heatmappy: a shallow embedding of [heatmap.py]

    The program draws a density heat map from a list of points: a grey
    rasterizer (PySide) paints one radial brush per point on a white canvas,
    the grey field is mapped through a matplotlib colour map, its alpha
    channel is scaled by an opacity factor, and the result is optionally
    composited over a background image (PIL).

    Layout of the development:
    - Python objects live in a store ([heap]); the methods of the source are
      computations in a state-and-exception monad [M] over that store, so
      that copies, in-place updates ([putalpha]) and aliasing are explicit;
    - the parts of PIL, matplotlib and Qt the source calls are modelled by
      their documented behaviour; what depends on the version or on a raster
      engine (the resampling filter, the antialiased brush coverage, the
      file system, the directory of the module) is a [Variable] of the
      section;
    - Python numbers are exact rationals ([Q]); [int(...)] truncates towards
      zero.  Binary floating point rounding is outside the model. *)

From Stdlib Require Import ZArith QArith Qround Lia Lqa.
From stdpp Require Import base gmap strings list fin_maps.

Local Open Scope Z_scope.

(** ** Python exceptions raised by the modelled calls *)

Inductive exn :=
| OSError          (* Image.open: missing or unreadable file *)
| ValueError       (* alpha_composite: images do not match; tuple unpacking *)
| TypeError        (* unpacking an int; fromarray on an unsupported array *)
| IndexError       (* getpixel / split()[3] out of range *)
| AttributeError.  (* a reference that is not an image *)

(** ** Numbers *)

(** [int(q)]: truncation towards zero. *)
Definition py_int (q : Q) : Z :=
  if Qlt_le_dec q 0 then Qceiling q else Qfloor q.

(** PIL's [CLIP8], applied to each entry of a lookup table given to
    [Image.point]. *)
Definition clip8 (v : Z) : Z :=
  if v <=? 0 then 0 else if v <? 256 then v else 255.

Definition is_byte (v : Z) : Prop := 0 <= v <= 255.

(** ** PIL images as values *)

Inductive Mode := L | RGB | RGBA.

Definition nbands (m : Mode) : nat :=
  match m with L => 1 | RGB => 3 | RGBA => 4 end%nat.

(** An image is a mode, a size [(width, height)] and one row-major list of
    bytes per band, as [Image.split] returns them. *)
Record Image := mkImage {
  im_mode : Mode;
  im_size : Z * Z;
  im_bands : list (list Z)
}.

Definition im_width (im : Image) : Z := fst (im_size im).
Definition im_height (im : Image) : Z := snd (im_size im).
Definition im_area (im : Image) : nat := Z.to_nat (im_width im * im_height im).

Definition wf_image (im : Image) : Prop :=
  0 <= im_width im /\ 0 <= im_height im /\
  length (im_bands im) = nbands (im_mode im) /\
  Forall (fun b => length b = im_area im /\ Forall is_byte b) (im_bands im).

Definition band (im : Image) (k : nat) : list Z := nth k (im_bands im) [].

#[global] Instance is_byte_dec v : Decision (is_byte v).
Proof. unfold is_byte. apply _. Defined.

#[global] Instance wf_image_dec im : Decision (wf_image im).
Proof. unfold wf_image. apply _. Defined.

#[global] Instance Mode_eq_dec : EqDecision Mode.
Proof. solve_decision. Defined.

#[global] Instance exn_eq_dec : EqDecision exn.
Proof. solve_decision. Defined.

(** Offset of pixel [(x, y)] in a band, when it is inside the image. *)
Definition pixel_index (im : Image) (x y : Z) : option nat :=
  if (0 <=? x) && (x <? im_width im) && (0 <=? y) && (y <? im_height im)
  then Some (Z.to_nat (y * im_width im + x)) else None.

(** [Convert.c]: [L24(rgb) >> 16]. *)
Definition rgb2l (r g b : Z) : Z :=
  Z.shiftr (r * 19595 + g * 38470 + b * 7471 + 32768) 16.

Fixpoint zip3 (rs gs bs : list Z) : list (Z * Z * Z) :=
  match rs, gs, bs with
  | r :: rs', g :: gs', b :: bs' => (r, g, b) :: zip3 rs' gs' bs'
  | _, _, _ => []
  end.

(** [im.convert(mode)] on pixel data. *)
Definition convert_bands (from to : Mode) (bs : list (list Z)) : list (list Z) :=
  let b0 := nth 0 bs [] in
  let b1 := nth 1 bs [] in
  let b2 := nth 2 bs [] in
  let opaque := map (fun _ => 255) b0 in
  match from, to with
  | L, L | RGB, RGB | RGBA, RGBA => bs
  | L, RGB => [b0; b0; b0]
  | L, RGBA => [b0; b0; b0; opaque]
  | RGB, RGBA => [b0; b1; b2; opaque]
  | RGBA, RGB => [b0; b1; b2]
  | RGB, L | RGBA, L => [map (fun '(r, g, b) => rgb2l r g b) (zip3 b0 b1 b2)]
  end.

Definition convert (im : Image) (m : Mode) : Image :=
  mkImage m (im_size im) (convert_bands (im_mode im) m (im_bands im)).

(** [Image.point(f)] on one band: the callable is tabulated over
    [range(256)], each entry clipped to a byte, and the table is applied to
    every pixel. *)
Definition point_lut (f : Z -> Z) : list Z :=
  map (fun i => clip8 (f (Z.of_nat i))) (seq 0 256).

Definition point_band (f : Z -> Z) (b : list Z) : list Z :=
  let lut := point_lut f in
  map (fun p => nth (Z.to_nat p) lut 0) b.

(** [AlphaComposite.c]: one pixel of [src] over [dst], rounded integer
    arithmetic with 7 extra bits of precision. *)
Definition shift_for_div255 (a : Z) : Z := Z.shiftr (Z.shiftr a 8 + a) 8.

Definition composite_pixel (dst src : Z * Z * Z * Z) : Z * Z * Z * Z :=
  let '(dr, dg, db, da) := dst in
  let '(sr, sg, sb, sa) := src in
  if sa =? 0 then dst
  else
    let blend := da * (255 - sa) in
    let outa255 := sa * 255 + blend in
    let coef1 := sa * 255 * 255 * 128 / outa255 in
    let coef2 := 255 * 128 - coef1 in
    let chan s d := Z.shiftr (shift_for_div255 (s * coef1 + d * coef2 + 128 * 128)) 7 in
    (chan sr dr, chan sg dg, chan sb db, shift_for_div255 (outa255 + 128)).

Fixpoint zip4 (rs gs bs als : list Z) : list (Z * Z * Z * Z) :=
  match rs, gs, bs, als with
  | r :: rs', g :: gs', b :: bs', a :: as' => (r, g, b, a) :: zip4 rs' gs' bs' as'
  | _, _, _, _ => []
  end.

Definition rgba_pixels (im : Image) : list (Z * Z * Z * Z) :=
  zip4 (band im 0) (band im 1) (band im 2) (band im 3).

Definition rgba_bands (px : list (Z * Z * Z * Z)) : list (list Z) :=
  [map (fun p => p.1.1.1) px; map (fun p => p.1.1.2) px;
   map (fun p => p.1.2) px; map (fun p => p.2) px].

(** ** matplotlib colour maps *)

Definition rgbaQ : Type := Q * Q * Q * Q.

(** A colour map is observed through its lookup table: [N] colours with
    components in [0, 1]. *)
Record LinearSegmentedColormap := mkCmap { cm_lut : list rgbaQ }.

Definition linspace01 (n : nat) : list Q :=
  map (fun j => inject_Z (Z.of_nat j) / inject_Z (Z.of_nat n - 1))%Q (seq 0 n).

(** [numpy.searchsorted(xs, v)] (left): the number of entries below [v] in
    a sorted [xs]. *)
Fixpoint searchsorted (xs : list Q) (v : Q) : nat :=
  match xs with
  | [] => 0
  | x :: xs' => if Qlt_le_dec x v then S (searchsorted xs' v) else 0
  end%nat.

Definition nthQ (k : nat) (l : list Q) : Q := nth k l 0%Q.

Definition clip01 (q : Q) : Q :=
  if Qlt_le_dec q 0 then 0%Q else if Qlt_le_dec 1 q then 1%Q else q.

(** One interior entry of the table: linear interpolation between the two
    anchors around the sample position [xi]. *)
Definition lut_entry (x ys : list Q) (xi : Q) : Q :=
  let ind := searchsorted x xi in
  let distance := ((xi - nthQ (ind - 1) x) / (nthQ ind x - nthQ (ind - 1) x))%Q in
  (distance * (nthQ ind ys - nthQ (ind - 1) ys) + nthQ (ind - 1) ys)%Q.

Definition scaled_anchors (N : nat) (xs : list Q) : list Q :=
  map (fun v => v * inject_Z (Z.of_nat N - 1))%Q xs.

Definition sample_positions (N : nat) : list Q :=
  map (fun v => inject_Z (Z.of_nat N - 1) * v)%Q (linspace01 N).

(** [matplotlib.colors._create_lookup_table(N, data)] for anchors [xs] with
    values [ys] (gamma 1): the end points are copied, the interior is
    interpolated, and the table is clipped to [0, 1]. *)
Definition create_lookup_table (N : nat) (xs ys : list Q) : list Q :=
  let x := scaled_anchors N xs in
  let xind := sample_positions N in
  let interior := map (lut_entry x ys) (removelast (tl xind)) in
  map clip01
    (if (N =? 1)%nat then [nthQ (length ys - 1) ys]
     else [nthQ 0 ys] ++ interior ++ [nthQ (length ys - 1) ys]).

Fixpoint zip4Q (rs gs bs als : list Q) : list rgbaQ :=
  match rs, gs, bs, als with
  | r :: rs', g :: gs', b :: bs', a :: as' => (r, g, b, a) :: zip4Q rs' gs' bs' as'
  | _, _, _, _ => []
  end.

(** [LinearSegmentedColormap.from_list(name, colours)]: the colours are
    anchors at evenly spaced positions of [0, 1]; the table has 256
    entries. *)
Definition from_list (colours : list rgbaQ) : LinearSegmentedColormap :=
  let vals := linspace01 (length colours) in
  let chan (f : rgbaQ -> Q) := create_lookup_table 256 vals (map f colours) in
  mkCmap (zip4Q (chan (fun c => c.1.1.1)) (chan (fun c => c.1.1.2))
                (chan (fun c => c.1.2)) (chan (fun c => c.2))).

(** [(lut * 255).astype(uint8)] on one component. *)
Definition to_uint8 (c : Q) : Z := py_int (c * 255) mod 256.

(** [cmap(v, bytes=True)] for an integer [v] of a uint8 array: entry [v] of
    the table, or the last entry (the default "over" colour) when [v] is
    past the table. *)
Definition cmap_lookup (cm : LinearSegmentedColormap) (v : Z) : rgbaQ :=
  nth (Z.to_nat v) (cm_lut cm) (List.last (cm_lut cm) (0, 0, 0, 0)%Q).

Definition cmap_bytes (cm : LinearSegmentedColormap) (v : Z) : Z * Z * Z * Z :=
  let '(r, g, b, a) := cmap_lookup cm v in
  (to_uint8 r, to_uint8 g, to_uint8 b, to_uint8 a).

(** ** Qt: images and the painter *)

Record QColor := mkQColor { red : Z; green : Z; blue : Z; alpha : Z }.

(** A [QImage] of format ARGB32; a null image (no pixel data) when a
    dimension is not positive. *)
Record QImage := mkQImage { q_width : Z; q_height : Z; q_pixels : list QColor }.

Definition QImage_new (width height : Z) : QImage :=
  if (0 <? width) && (0 <? height)
  then mkQImage width height (repeat (mkQColor 0 0 0 0) (Z.to_nat (width * height)))
  else mkQImage 0 0 [].

Definition QImage_isNull (img : QImage) : bool :=
  match q_pixels img with [] => true | _ => false end.

Definition QImage_fill (img : QImage) (c : QColor) : QImage :=
  mkQImage (q_width img) (q_height img) (map (fun _ => c) (q_pixels img)).

Record QPen := mkQPen { pen_color : QColor; pen_width : Z }.

Record QRadialGradient := mkQRadialGradient {
  grad_cx : Q; grad_cy : Q; grad_radius : Q;
  grad_stops : list (Q * QColor)
}.

Definition setColorAt (g : QRadialGradient) (pos : Q) (c : QColor) : QRadialGradient :=
  mkQRadialGradient (grad_cx g) (grad_cy g) (grad_radius g) (grad_stops g ++ [(pos, c)]).

(** The painter holds the image it paints on; painting returns the painter
    with the image updated. *)
Record QPainter := mkQPainter {
  device : QImage;
  antialiasing : bool;
  pen : option QPen;
  brush : option QRadialGradient
}.

(** [qt_div_255]: rounded division by 255. *)
Definition qt_div_255 (x : Z) : Z := Z.shiftr (x + Z.shiftr x 8 + 128) 8.

(** Source-over of black with alpha [a] on one pixel (premultiplied
    arithmetic, [BYTE_MUL(dst, 255 - a)] on each colour channel).  The
    canvas is opaque, where premultiplied and plain components agree. *)
Definition blend_black (a : Z) (d : QColor) : QColor :=
  mkQColor (qt_div_255 (red d * (255 - a)))
           (qt_div_255 (green d * (255 - a)))
           (qt_div_255 (blue d * (255 - a)))
           (a + qt_div_255 (alpha d * (255 - a))).

(** ** Objects of the program and the store *)

Definition point : Type := Q * Q.

(** [PySideGreyHeatmapper]: [dm] is the point diameter, [point_strength]
    the peak alpha of one brush, already scaled to 0..255. *)
Record PySideGreyHeatmapper := mkPySide { dm : Q; point_strength : Z }.

(** The [GreyHeatMapper] interface: the default implementation, or an object
    of the caller's, observed through the image its [heatmap] returns. *)
Inductive GreyHeatMapper :=
| PySide (g : PySideGreyHeatmapper)
| Custom (rasterize : Z -> Z -> list point -> exn + Image).

Record Heatmapper := mkHeatmapper {
  _opacity : Q;
  cmap : LinearSegmentedColormap;
  grey_heatmapper : GreyHeatMapper
}.

Inductive obj :=
| OImage (im : Image)
| OHeatmapper (hm : Heatmapper).

Abbreviation loc := positive.
Abbreviation heap := (gmap positive obj).

(** Computations: the store is threaded through, and survives an
    exception. *)
Definition M (A : Type) : Type := heap -> (exn + A) * heap.

Definition ret {A} (a : A) : M A := fun h => (inr a, h).
Definition raise {A} (e : exn) : M A := fun h => (inl e, h).
Definition bind {A B} (m : M A) (k : A -> M B) : M B :=
  fun h => match m h with
           | (inr a, h') => k a h'
           | (inl e, h') => (inl e, h')
           end.

Notation "'let*' x ':=' c 'in' k" := (bind c (fun x => k))
  (at level 10, x pattern, c at level 100, k at level 200).

Fixpoint mapM {A B} (f : A -> M B) (l : list A) : M (list B) :=
  match l with
  | [] => ret []
  | a :: l' => let* b := f a in let* bs := mapM f l' in ret (b :: bs)
  end.

Definition alloc (o : obj) : M loc :=
  fun h => let l := fresh (dom h) in (inr l, <[l := o]> h).

Definition get_image (l : loc) : M Image :=
  fun h => match h !! l with
           | Some (OImage im) => (inr im, h)
           | _ => (inl AttributeError, h)
           end.

Definition set_image (l : loc) (im : Image) : M unit :=
  fun h => (inr tt, <[l := OImage im]> h).

Definition get_heatmapper (l : loc) : M Heatmapper :=
  fun h => match h !! l with
           | Some (OHeatmapper hm) => (inr hm, h)
           | _ => (inl AttributeError, h)
           end.

(** [l[k]] on a Python list. *)
Definition list_index {A} (l : list A) (k : nat) : M A :=
  match l !! k with Some a => ret a | None => raise IndexError end.

(** What [getpixel] returns: an int for a single band, a tuple otherwise. *)
Inductive pixel := PInt (v : Z) | PTuple (vs : list Z).

(** [(r, g, b, a) = px]. *)
Definition unpack4 (px : pixel) : M (Z * Z * Z * Z) :=
  match px with
  | PInt _ => raise TypeError
  | PTuple [r; g; b; a] => ret (r, g, b, a)
  | PTuple _ => raise ValueError
  end.

(** [s or d] on strings, [s] possibly [None]. *)
Definition py_or (s : option string) (d : string) : string :=
  match s with
  | Some s' => if String.eqb s' "" then d else s'
  | None => d
  end.

(** Truth value of [None], or of a string. *)
Definition truthy (s : option string) : bool :=
  match s with
  | Some s' => negb (String.eqb s' "")
  | None => false
  end.

(** [os.path.join(d, f)] for a relative [f]. *)
Definition os_path_join (d f : string) : string :=
  if String.eqb d "" then f
  else if String.eqb (String.substring (String.length d - 1) 1 d) "/" then d +:+ f
  else d +:+ "/" +:+ f.

(** * Concrete instances

    One choice for each part the program leaves to its libraries and its
    environment, and small inputs, used to run the model on examples. *)

(** Nearest-neighbour resampling ([Image.NEAREST]): the destination pixel
    [(x, y)] takes the source pixel under its centre. *)
Definition nearest_resample (im : Image) (sz : Z * Z) : list (list Z) :=
  let '(w, h) := sz in
  let src k :=
    let x := Z.of_nat k mod w in
    let y := Z.of_nat k / w in
    let sx := (2 * x + 1) * im_width im / (2 * w) in
    let sy := (2 * y + 1) * im_height im / (2 * h) in
    Z.to_nat (sy * im_width im + sx) in
  map (fun b => map (fun k => nth (src k) b 0) (seq 0 (Z.to_nat (w * h)))) (im_bands im).

(** A brush without falloff or antialiasing: the alpha of the gradient's
    first stop on the pixels of the ellipse's bounding box, nothing
    elsewhere. *)
Definition box_brush (aa : bool) (g : QRadialGradient) (r : Q * Q * Q * Q) (col row : Z) : Z :=
  let '(x, y, w, h) := r in
  if Qle_bool x (inject_Z col) && Qle_bool (inject_Z col) (x + w) &&
     Qle_bool y (inject_Z row) && Qle_bool (inject_Z row) (y + h)
  then match grad_stops g with
       | (_, c) :: _ => Z.min 255 (Z.max 0 (alpha c))
       | [] => 0
       end
  else 0.

(** A 256 x 1 reference image: red rises, blue falls, and alpha falls to 0
    at the right end (grey value 255, zero density). *)
Definition scale_png : Image :=
  let up := map Z.of_nat (seq 0 256) in
  let down := map (fun k => 255 - Z.of_nat k) (seq 0 256) in
  mkImage RGBA (256, 1) [up; map (fun _ => 0) up; down; down].

(** A 2 x 2 opaque background. *)
Definition bg_png : Image :=
  mkImage RGB (2, 2) [[10; 20; 30; 40]; [50; 60; 70; 80]; [90; 100; 110; 120]].


Definition demo_files : gmap string Image :=
  {[ "scale.png" := scale_png; "bg.png" := bg_png ]}.

(** A colour map from opaque red (dense) to transparent white (zero
    density). *)
Definition red_to_clear : LinearSegmentedColormap :=
  from_list [(1, 0, 0, 1); (1, 1, 1, 0)]%Q.

(** * The program *)

Section Heatmappy.

(** The image files of the file system, by path. *)
Variable files : gmap string Image.

(** [os.path.dirname(__file__)]. *)
Variable module_dir : string.

(** Pixel data of [im.resize(size)] when the size changes: the resampling
    filter (which one is the default depends on the PIL version). *)
Variable resample : Image -> Z * Z -> list (list Z).

(** Alpha (0..255) with which the raster engine paints a pixel of an
    ellipse filled with a radial gradient brush: the gradient's alpha at the
    pixel times the (antialiased) coverage.  Arguments: the antialiasing
    hint, the gradient, the ellipse [(x, y, w, h)], the pixel's column and
    row. *)
Variable brush_alpha : bool -> QRadialGradient -> Q * Q * Q * Q -> Z -> Z -> Z.

(** ** PIL on the store *)

Definition Image_open (path : string) : M loc :=
  match files !! path with
  | Some im => alloc (OImage im)
  | None => raise OSError
  end.

Definition Image_copy (l : loc) : M loc :=
  let* im := get_image l in alloc (OImage im).

Definition Image_convert (l : loc) (m : Mode) : M loc :=
  let* im := get_image l in alloc (OImage (convert im m)).

(** [Image.resize]: a copy when the size is the image's own. *)
Definition resize (im : Image) (sz : Z * Z) : Image :=
  if decide (im_size im = sz) then im
  else mkImage (im_mode im) sz (resample im sz).

Definition Image_resize (l : loc) (sz : Z * Z) : M loc :=
  let* im := get_image l in alloc (OImage (resize im sz)).

Definition pixel_at (im : Image) (k : nat) : pixel :=
  match im_mode im with
  | L => PInt (nth k (band im 0) 0)
  | _ => PTuple (map (fun b => nth k b 0) (im_bands im))
  end.

Definition Image_getpixel (l : loc) (xy : Z * Z) : M pixel :=
  let* im := get_image l in
  match pixel_index im xy.1 xy.2 with
  | Some k => ret (pixel_at im k)
  | None => raise IndexError
  end.

(** [im.split()]: one new [L] image per band. *)
Definition Image_split (l : loc) : M (list loc) :=
  let* im := get_image l in
  mapM (fun b => alloc (OImage (mkImage L (im_size im) [b]))) (im_bands im).

Definition Image_point (l : loc) (f : Z -> Z) : M loc :=
  let* im := get_image l in
  alloc (OImage (mkImage (im_mode im) (im_size im) (map (point_band f) (im_bands im)))).

(** [im.putalpha(alpha)]: replaces band 3 of [im] in place.  (An [RGB]
    image is first converted to [RGBA] in place; mode [LA] is outside the
    model.) *)
Definition Image_putalpha (l a : loc) : M unit :=
  let* im := get_image l in
  let* al := get_image a in
  if negb (bool_decide (im_mode al = L)) then raise ValueError
  else if negb (bool_decide (im_size al = im_size im)) then raise ValueError
  else match im_mode im with
       | RGBA => set_image l (mkImage RGBA (im_size im) (<[3%nat := band al 0]> (im_bands im)))
       | RGB => set_image l (mkImage RGBA (im_size im)
                  (<[3%nat := band al 0]> (im_bands (convert im RGBA))))
       | L => raise ValueError
       end.

(** [Image.alpha_composite(im1, im2)]: both [RGBA] and of one size, or
    [ValueError] ("images do not match"). *)
Definition Image_alpha_composite (l1 l2 : loc) : M loc :=
  let* im1 := get_image l1 in
  let* im2 := get_image l2 in
  if negb (bool_decide (im_mode im1 = RGBA)) then raise ValueError
  else if negb (bool_decide (im_mode im2 = RGBA /\ im_size im2 = im_size im1))
  then raise ValueError
  else alloc (OImage (mkImage RGBA (im_size im1)
         (rgba_bands (zip_with composite_pixel (rgba_pixels im1) (rgba_pixels im2))))).

(** ** PySideGreyHeatmapper *)

Definition GreyHeatMapper__init__ (point_diameter point_strength : Q) : Q * Q :=
  (point_diameter, point_strength).

(** [super().__init__] stores both values; [point_strength] is then
    replaced by [int(point_strength * 255)]. *)
Definition PySideGreyHeatmapper__init__ (point_diameter point_strength : Q)
  : PySideGreyHeatmapper :=
  let '(dm0, _) := GreyHeatMapper__init__ point_diameter point_strength in
  mkPySide dm0 (py_int (point_strength * 255)).

Definition QPainter_new (img : QImage) : QPainter := mkQPainter img false None None.

Definition setRenderHint_Antialiasing (p : QPainter) : QPainter :=
  mkQPainter (device p) true (pen p) (brush p).

Definition setPen (p : QPainter) (pn : QPen) : QPainter :=
  mkQPainter (device p) (antialiasing p) (Some pn) (brush p).

Definition setBrush (p : QPainter) (g : QRadialGradient) : QPainter :=
  mkQPainter (device p) (antialiasing p) (pen p) (Some g).

(** [painter.drawEllipse(x, y, w, h)] with a black gradient brush and a pen
    of alpha 0 (which draws nothing): every pixel of the device is blended
    (source-over) with black at the brush's alpha there. *)
Definition drawEllipse (p : QPainter) (x y w h : Q) : QPainter :=
  match brush p with
  | None => p
  | Some g =>
      let img := device p in
      let paint k d :=
        let col := Z.of_nat k mod q_width img in
        let row := Z.of_nat k / q_width img in
        blend_black (brush_alpha (antialiasing p) g (x, y, w, h) col row) d in
      mkQPainter (mkQImage (q_width img) (q_height img) (imap paint (q_pixels img)))
                 (antialiasing p) (pen p) (brush p)
  end.

Definition _paint_point (self : PySideGreyHeatmapper) (pt : point) (painter : QPainter)
  : QPainter :=
  let pn := mkQPen (mkQColor 0 0 0 0) 0 in
  let painter := setPen painter pn in
  let '(x, y) := pt in
  let grad := mkQRadialGradient x y (dm self / 2) [] in
  let grad := setColorAt grad 0 (mkQColor 0 0 0 (Z.max (point_strength self) 0)) in
  let grad := setColorAt grad 1 (mkQColor 0 0 0 0) in
  let painter := setBrush painter grad in
  drawEllipse painter (x - dm self / 2) (y - dm self / 2) (dm self) (dm self).

(** The painter paints on [img] in place; the painted image is returned. *)
Definition _paint_points (self : PySideGreyHeatmapper) (img : QImage) (points : list point)
  : QImage :=
  let painter := QPainter_new img in
  let painter := setRenderHint_Antialiasing painter in
  let painter := fold_left (fun p pt => _paint_point self pt p) points painter in
  device painter.

(** The image is saved as PNG to a buffer and opened with PIL: an [RGBA]
    image with the same pixels.  A null image saves nothing, and
    [Image.open] fails on the empty buffer. *)
Definition _qimage_to_pil_image (qimg : QImage) : M loc :=
  if QImage_isNull qimg then raise OSError
  else alloc (OImage (mkImage RGBA (q_width qimg, q_height qimg)
         (rgba_bands (map (fun c => (red c, green c, blue c, alpha c)) (q_pixels qimg))))).

Definition PySideGreyHeatmapper_heatmap (self : PySideGreyHeatmapper)
  (width height : Z) (points : list point) : M loc :=
  let base_image := QImage_new width height in
  let base_image := QImage_fill base_image (mkQColor 255 255 255 255) in
  let base_image := _paint_points self base_image points in
  let* im := _qimage_to_pil_image base_image in
  Image_convert im L.

(** [self.grey_heatmapper.heatmap(width, height, points)]. *)
Definition GreyHeatMapper_heatmap (g : GreyHeatMapper) (width height : Z)
  (points : list point) : M loc :=
  match g with
  | PySide self => PySideGreyHeatmapper_heatmap self width height points
  | Custom rasterize =>
      match rasterize width height points with
      | inr im => alloc (OImage im)
      | inl e => raise e
      end
  end.

(** ** Heatmapper *)

(** The [colours] argument: a string (preset name or path) or a colour
    map. *)
Inductive colours_arg :=
| ColoursStr (s : string)
| ColoursCmap (c : LinearSegmentedColormap).

(** The [grey_heatmapper] argument: the string ['PySide'] or an object that
    fulfils the interface. *)
Inductive grey_arg :=
| GreyPySide
| GreyObject (rasterize : Z -> Z -> list point -> exn + Image).

Definition local_file (file : string) : string := os_path_join module_dir file.

Definition preset_files : gmap string string :=
  {[ "default" := local_file "default.png"; "reveal" := local_file "reveal.png" ]}.

(** [(r/255, g/255, b/255, a/255)]. *)
Definition colour_of (px : Z * Z * Z * Z) : rgbaQ :=
  let '(r, g, b, a) := px in
  (inject_Z r / 255, inject_Z g / 255, inject_Z b / 255, inject_Z a / 255)%Q.

Definition _cmap_from_image_path (img_path : string) : M LinearSegmentedColormap :=
  let* img := Image_open img_path in
  let* im := get_image img in
  let* img := Image_resize img (256, im_height im) in
  let* colours :=
    mapM (fun x => let* px := Image_getpixel img (Z.of_nat x, 0) in unpack4 px)
         (seq 0 256) in
  let colours := map colour_of colours in
  ret (from_list colours).

Definition Heatmapper__init__ (point_diameter alpha_strength opacity : Q)
  (colours : colours_arg) (grey : grey_arg) : M loc :=
  let opacity0 := opacity in
  let* cmap0 :=
    match colours with
    | ColoursCmap c => ret c
    | ColoursStr s =>
        let scale_path := py_or (preset_files !! s) s in
        _cmap_from_image_path scale_path
    end in
  let grey0 :=
    match grey with
    | GreyPySide => PySide (PySideGreyHeatmapper__init__ point_diameter alpha_strength)
    | GreyObject g => Custom g
    end in
  alloc (OHeatmapper (mkHeatmapper opacity0 cmap0 grey0)).

(** [cmap(numpy.array(img), bytes=True)] and [Image.fromarray]: defined for
    a single-band image; the array of a multi-band image yields one
    dimension too many for [fromarray]. *)
Definition _colourise (self : loc) (img : loc) : M loc :=
  let* im := get_image img in
  let* hm := get_heatmapper self in
  match im_mode im with
  | L =>
      let rgba_img := map (cmap_bytes (cmap hm)) (band im 0) in
      alloc (OImage (mkImage RGBA (im_size im) (rgba_bands rgba_img)))
  | _ => raise TypeError
  end.

Definition _to_opacity (img : loc) (opacity : Q) : M loc :=
  let* img := Image_copy img in
  let* bands := Image_split img in
  let* alpha := list_index bands 3 in
  let* alpha := Image_point alpha (fun p => py_int (inject_Z p * opacity)) in
  let* _ := Image_putalpha img alpha in
  ret img.

Definition heatmap (self : loc) (width height : Z) (points : list point)
  (base_path : option string) (base_img : option loc) : M loc :=
  let* hm := get_heatmapper self in
  let* heatmap := GreyHeatMapper_heatmap (grey_heatmapper hm) width height points in
  let* heatmap := _colourise self heatmap in
  let* hm := get_heatmapper self in
  let* heatmap := _to_opacity heatmap (_opacity hm) in
  if negb (truthy base_path || bool_decide (is_Some base_img)) then ret heatmap
  else
    let* background :=
      if truthy base_path then Image_open (default "" base_path)
      else match base_img with
           | Some l => ret l
           | None => raise AttributeError
           end in
    let* background := Image_convert background RGBA in
    Image_alpha_composite background heatmap.

Definition heatmap_on_base_path (self : loc) (points : list point) (base_path : string)
  : M loc :=
  let* img := Image_open base_path in
  let* im := get_image img in
  heatmap self (im_width im) (im_height im) points (Some base_path) None.

Definition heatmap_on_img (self : loc) (points : list point) (img : loc) : M loc :=
  let* im := get_image img in
  heatmap self (im_width im) (im_height im) points None (Some img).


(** * Specification vocabulary *)

(** [wp m h Φ]: running [m] in store [h] ends in a result and a store that
    satisfy [Φ]. *)
Definition wp {A} (m : M A) (h : heap) (Φ : exn + A -> heap -> Prop) : Prop :=
  Φ (m h).1 (m h).2.

(** [m] leaves every object of [h0] as it is, from any store that holds
    [h0]. *)
Definition frames {A} (h0 : heap) (m : M A) : Prop :=
  forall h, h0 ⊆ h -> h0 ⊆ (m h).2.

(** The alpha the opacity stage writes for an alpha [p]. *)
Definition opacity_alpha (opacity : Q) (p : Z) : Z :=
  clip8 (py_int (inject_Z p * opacity)).

(** The image [_to_opacity] returns for an [RGBA] image. *)
Definition with_opacity (im : Image) (opacity : Q) : Image :=
  mkImage RGBA (im_size im)
    [band im 0; band im 1; band im 2; map (opacity_alpha opacity) (band im 3)].


Definition white : QColor := mkQColor 255 255 255 255.

(** The canvas after [PySideGreyHeatmapper.heatmap] has painted [points]. *)
Definition painted_canvas (self : PySideGreyHeatmapper) (width height : Z)
  (points : list point) : QImage :=
  _paint_points self (QImage_fill (QImage_new width height) white) points.

(** Its grey values, as [convert('L')] computes them. *)
Definition grey_values (img : QImage) : list Z :=
  map (fun c => rgb2l (red c) (green c) (blue c)) (q_pixels img).

Definition grey_image (img : QImage) : Image :=
  mkImage L (q_width img, q_height img) [grey_values img].

(** A pixel whose colour channels are bytes. *)
Definition byte_colour (c : QColor) : Prop :=
  is_byte (red c) /\ is_byte (green c) /\ is_byte (blue c).

(** [d] is no lighter than [c] in any colour channel. *)
Definition darker_eq (d c : QColor) : Prop :=
  red d <= red c /\ green d <= green c /\ blue d <= blue c.

(** [m] only adds objects to the store. *)
Definition grows {A} (m : M A) : Prop := forall h, h ⊆ (m h).2.

(** [m] only adds objects to the store, and what it returns is one of the
    objects it added. *)
Definition allocates (m : M loc) : Prop :=
  forall h, h ⊆ (m h).2 /\ forall l, (m h).1 = inr l -> h !! l = None.

(** The [RGBA] image [_colourise] builds from a grey band. *)
Definition colourised (cm : LinearSegmentedColormap) (sz : Z * Z) (g : list Z) : Image :=
  mkImage RGBA sz (rgba_bands (map (cmap_bytes cm) g)).

(** Alpha of the colour for grey value 255 (white, no density). *)
Definition zero_density_alpha (cm : LinearSegmentedColormap) : Q :=
  (cmap_lookup cm 255).2.

(** The heat map before any background: rasterized, colourised, with the
    opacity applied. *)
Definition overlay (hm : Heatmapper) (g : PySideGreyHeatmapper) (width height : Z)
  (points : list point) : Image :=
  with_opacity
    (colourised (cmap hm) (width, height) (grey_values (painted_canvas g width height points)))
    (_opacity hm).

(** The last lines of [heatmap], from [if not (base_path or base_img)]. *)
Definition compose_background (base_path : option string) (base_img : option loc)
  (heatmap : loc) : M loc :=
  if negb (truthy base_path || bool_decide (is_Some base_img)) then ret heatmap
  else
    let* background :=
      if truthy base_path then Image_open (default "" base_path)
      else match base_img with
           | Some l => ret l
           | None => raise AttributeError
           end in
    let* background := Image_convert background RGBA in
    Image_alpha_composite background heatmap.

(** The background image a call of [heatmap] is given, if any: the file at
    a (non-empty) [base_path], else the image [base_img] refers to. *)
Definition supplied_background (base_path : option string) (base_img : option loc)
  (h : heap) : option Image :=
  if truthy base_path then files !! default "" base_path
  else match base_img with
       | Some l => match h !! l with
                   | Some (OImage im) => Some im
                   | _ => None
                   end
       | None => None
       end.






(** A store with one [Heatmapper] (default rasterizer, diameter 50,
    strength 0.2, opacity 0.65) and one background image. *)
Definition demo_heatmapper : Heatmapper :=
  mkHeatmapper (65 # 100) red_to_clear (PySide (PySideGreyHeatmapper__init__ 50 (1 # 5))).

Definition demo_heap : heap :=
  {[ 1%positive := OHeatmapper demo_heatmapper; 2%positive := OImage bg_png ]}.

(** A rasterizer of the caller's: one grey pixel whatever is asked for, and
    an error when there is no point. *)
Definition one_pixel_rasterizer (width height : Z) (points : list point) : exn + Image :=
  match points with
  | [] => inl ValueError
  | _ => inr (mkImage L (1, 1) [[128]])
  end.

Definition custom_heap : heap :=
  {[ 1%positive :=
       OHeatmapper (mkHeatmapper (65 # 100) red_to_clear (Custom one_pixel_rasterizer)) ]}.

(** * The program logic of [M] *)

Lemma wp_ret {A} (a : A) h Φ : Φ (inr a) h -> wp (ret a) h Φ.
Proof. done. Qed.

Lemma wp_raise {A} e h (Φ : exn + A -> heap -> Prop) : Φ (inl e) h -> wp (raise e) h Φ.
Proof. done. Qed.

Lemma wp_bind {A B} (m : M A) (k : A -> M B) h Φ :
  wp m h (fun r h' => match r with
                      | inr a => wp (k a) h' Φ
                      | inl e => Φ (inl e) h'
                      end) ->
  wp (bind m k) h Φ.
Proof. unfold wp, bind. by destruct (m h) as [[e|a] h']. Qed.

Lemma wp_alloc o h Φ :
  (forall l, h !! l = None -> Φ (inr l) (<[l := o]> h)) -> wp (alloc o) h Φ.
Proof.
  intros H. apply H. apply not_elem_of_dom, is_fresh.
Qed.

Lemma wp_get_image l im h Φ :
  h !! l = Some (OImage im) -> Φ (inr im) h -> wp (get_image l) h Φ.
Proof. intros Hl H. unfold wp, get_image. by rewrite Hl. Qed.

Lemma wp_get_heatmapper l hm h Φ :
  h !! l = Some (OHeatmapper hm) -> Φ (inr hm) h -> wp (get_heatmapper l) h Φ.
Proof. intros Hl H. unfold wp, get_heatmapper. by rewrite Hl. Qed.

Lemma wp_set_image l im h Φ :
  Φ (inr tt) (<[l := OImage im]> h) -> wp (set_image l im) h Φ.
Proof. done. Qed.

Lemma wp_mono {A} (m : M A) h (Φ Ψ : exn + A -> heap -> Prop) :
  wp m h Φ -> (forall r h', Φ r h' -> Ψ r h') -> wp m h Ψ.
Proof. unfold wp. auto. Qed.

Lemma wp_run {A} (m : M A) h Φ : wp m h Φ -> exists r h', m h = (r, h') /\ Φ r h'.
Proof. unfold wp. destruct (m h) as [r h']. eauto. Qed.

(** Proof steps over [wp]. *)

Ltac fresh_facts H :=
  repeat (let H' := fresh "Hne" in apply lookup_insert_None in H as [H H']).

Ltac heap_lookup :=
  repeat first
    [ rewrite lookup_insert_eq
    | rewrite lookup_insert_ne by congruence ];
  try eassumption; try reflexivity.

Ltac heap_subseteq :=
  repeat (apply insert_subseteq_r; [assumption|]); reflexivity.

Ltac wp_step :=
  cbn beta iota;
  lazymatch goal with
  | |- wp (bind _ _) _ _ => apply wp_bind
  | |- wp (ret _) _ _ => apply wp_ret
  | |- wp (raise _) _ _ => apply wp_raise
  | |- wp (mapM _ _) _ _ => cbn [mapM]
  | |- wp (alloc _) _ _ =>
      let l := fresh "l" in let H := fresh "Hfresh" in
      apply wp_alloc; intros l H; fresh_facts H
  | |- wp (get_image _) _ _ => eapply wp_get_image; [heap_lookup|]
  | |- wp (get_heatmapper _) _ _ => eapply wp_get_heatmapper; [heap_lookup|]
  | |- wp (set_image _ _) _ _ => apply wp_set_image
  end.

(** * Bytes and lookup tables *)

Lemma clip8_byte v : is_byte (clip8 v).
Proof. unfold clip8, is_byte. repeat case_match; lia. Qed.


Lemma point_lut_nth f p :
  is_byte p -> nth (Z.to_nat p) (point_lut f) 0 = clip8 (f p).
Proof.
  intros [H0 H255]. unfold point_lut.
  rewrite (nth_indep _ 0 (clip8 (f (Z.of_nat 0)))).
  - rewrite (map_nth (fun i => clip8 (f (Z.of_nat i)))).
    rewrite seq_nth by lia. simpl. by rewrite Z2Nat.id.
  - rewrite length_map, length_seq. lia.
Qed.

Lemma point_band_bytes f b :
  Forall is_byte b -> point_band f b = map (fun p => clip8 (f p)) b.
Proof.
  intros Hb. unfold point_band. induction Hb as [|p b Hp Hb IH]; [done|].
  cbn [map]. by rewrite point_lut_nth, IH.
Qed.

(** The four bands of a well-formed [RGBA] image. *)
Lemma wf_rgba_bands im :
  wf_image im -> im_mode im = RGBA ->
  im_bands im = [band im 0; band im 1; band im 2; band im 3] /\
  Forall is_byte (band im 3).
Proof.
  intros (_ & _ & Hlen & Hall) Hmode. rewrite Hmode in Hlen. unfold band.
  destruct (im_bands im) as [|b0 [|b1 [|b2 [|b3 [|? ?]]]]]; try discriminate.
  split; [done|]. simpl.
  apply Forall_cons in Hall as [_ Hall]. apply Forall_cons in Hall as [_ Hall].
  apply Forall_cons in Hall as [_ Hall]. apply Forall_cons in Hall as [[_ H3] _].
  done.
Qed.

(** * The opacity stage *)

Lemma to_opacity_wp l opacity h im Φ :
  h !! l = Some (OImage im) -> wf_image im -> im_mode im = RGBA ->
  (forall l' h', h !! l' = None -> h ⊆ h' ->
                 h' !! l' = Some (OImage (with_opacity im opacity)) ->
                 Φ (inr l') h') ->
  wp (_to_opacity l opacity) h Φ.
Proof.
  intros Hl Hwf Hmode HΦ.
  destruct (wf_rgba_bands im Hwf Hmode) as [Hb Hbytes].
  unfold _to_opacity, Image_copy, Image_split, Image_point, Image_putalpha, list_index.
  do 4 wp_step. do 3 wp_step. rewrite Hb.
  repeat wp_step. change ([l1; l2; l3; l4] !! 3%nat) with (Some l4).
  repeat wp_step. cbn [im_mode im_size im_bands map]. repeat wp_step.
  cbn [im_mode im_size]. rewrite Hmode.
  rewrite !bool_decide_eq_true_2 by done. cbn [negb].
  repeat wp_step. apply HΦ; [done|heap_subseteq|].
  rewrite lookup_insert_eq. do 2 f_equal. unfold with_opacity. f_equal.
  rewrite Hb. cbn. unfold band at 1. cbn [im_bands nth].
  by rewrite point_band_bytes.
Qed.

Lemma py_int_nonneg q : (0 <= q)%Q -> py_int q = Qfloor q.
Proof.
  intros Hq. unfold py_int. destruct (Qlt_le_dec q 0) as [Hlt|_]; [|done].
  exfalso. by apply (Qlt_not_le _ _ Hlt).
Qed.




Lemma with_opacity_wf im o :
  wf_image im -> im_mode im = RGBA -> wf_image (with_opacity im o).
Proof.
  intros Hwf Hmode. destruct (wf_rgba_bands im Hwf Hmode) as [Hb _].
  destruct Hwf as (Hw & Hh & _ & Hall). rewrite Hb in Hall.
  apply Forall_cons in Hall as [[L0 B0] Hall]. apply Forall_cons in Hall as [[L1 B1] Hall].
  apply Forall_cons in Hall as [[L2 B2] Hall]. apply Forall_cons in Hall as [[L3 B3] _].
  unfold wf_image, with_opacity, im_area, im_width, im_height in *. cbn.
  split; [done|]. split; [done|]. split; [done|].
  repeat (apply Forall_cons; split); try done.
  split; [by rewrite length_map|].
  apply Forall_map, Forall_true. intros p. apply clip8_byte.
Qed.





(** * The rasterizer *)

Lemma qt_div_255_le c a :
  is_byte c -> is_byte a -> 0 <= qt_div_255 (c * (255 - a)) <= c.
Proof.
  intros [Hc0 Hc1] [Ha0 Ha1]. unfold qt_div_255.
  rewrite !Z.shiftr_div_pow2 by lia. change (2 ^ 8) with 256.
  set (x := c * (255 - a)).
  assert (0 <= x <= 255 * c) as [Hx0 Hx1] by (unfold x; nia).
  assert (0 <= x / 256 <= c) as [Hd0 Hd1].
  { split; [apply Z.div_pos; lia|].
    apply Z.div_le_upper_bound; lia. }
  split.
  - apply Z.div_pos; lia.
  - apply Z.lt_succ_r, Z.div_lt_upper_bound; lia.
Qed.

Lemma blend_black_darker a d :
  is_byte a -> byte_colour d ->
  byte_colour (blend_black a d) /\ darker_eq (blend_black a d) d.
Proof.
  intros Ha (Hr & Hg & Hb).
  pose proof (qt_div_255_le _ _ Hr Ha). pose proof (qt_div_255_le _ _ Hg Ha).
  pose proof (qt_div_255_le _ _ Hb Ha).
  unfold byte_colour, darker_eq, is_byte in *. cbn. lia.
Qed.

Lemma rgb2l_mono r g b r' g' b' :
  r <= r' -> g <= g' -> b <= b' -> rgb2l r g b <= rgb2l r' g' b'.
Proof.
  intros. unfold rgb2l. rewrite !Z.shiftr_div_pow2 by lia.
  apply Z.div_le_mono; lia.
Qed.

Lemma zip3_map {A} (f1 f2 f3 : A -> Z) (l : list A) :
  zip3 (map f1 l) (map f2 l) (map f3 l) = map (fun x => (f1 x, f2 x, f3 x)) l.
Proof. induction l as [|x l IH]; [done|]. cbn. by rewrite IH. Qed.

Lemma paint_point_shape self pt p :
  q_width (device (_paint_point self pt p)) = q_width (device p) /\
  q_height (device (_paint_point self pt p)) = q_height (device p) /\
  length (q_pixels (device (_paint_point self pt p))) = length (q_pixels (device p)).
Proof.
  unfold _paint_point. destruct pt as [x y]. unfold drawEllipse. cbn.
  by rewrite length_imap.
Qed.

Lemma paint_points_fold_shape self pts p :
  let p' := fold_left (fun p pt => _paint_point self pt p) pts p in
  q_width (device p') = q_width (device p) /\
  q_height (device p') = q_height (device p) /\
  length (q_pixels (device p')) = length (q_pixels (device p)).
Proof.
  revert p. induction pts as [|pt pts IH]; intros p; [done|]. cbn.
  destruct (IH (_paint_point self pt p)) as (Hw & Hh & Hl).
  destruct (paint_point_shape self pt p) as (Hw' & Hh' & Hl').
  cbn in *. repeat split; congruence.
Qed.

Lemma painted_canvas_shape self w h pts :
  0 < w -> 0 < h ->
  q_width (painted_canvas self w h pts) = w /\
  q_height (painted_canvas self w h pts) = h /\
  length (q_pixels (painted_canvas self w h pts)) = Z.to_nat (w * h).
Proof.
  intros Hw Hh. unfold painted_canvas, _paint_points.
  match goal with |- context [fold_left ?f pts ?p] =>
    destruct (paint_points_fold_shape self pts p) as (E1 & E2 & E3) end.
  cbn in E1, E2, E3. rewrite E1, E2, E3.
  unfold QImage_new.
  rewrite (proj2 (Z.ltb_lt 0 w) Hw), (proj2 (Z.ltb_lt 0 h) Hh). cbn.
  by rewrite length_map, repeat_length.
Qed.

Lemma imap_darker (paint : nat -> QColor -> QColor) (l : list QColor) :
  (forall k d, byte_colour d -> byte_colour (paint k d) /\ darker_eq (paint k d) d) ->
  Forall byte_colour l ->
  Forall byte_colour (imap paint l) /\ Forall2 darker_eq (imap paint l) l.
Proof.
  intros Hpaint Hbytes. revert paint Hpaint.
  induction Hbytes as [|d l Hd Hl IH]; intros paint Hpaint.
  - split; constructor.
  - cbn. destruct (IH (paint ∘ S)) as [IH1 IH2].
    { intros k d'. apply Hpaint. }
    destruct (Hpaint 0%nat d Hd). split; by constructor.
Qed.

(** One more brush never lightens a pixel. *)
Lemma paint_point_darkens self pt p :
  (forall aa g r x y, is_byte (brush_alpha aa g r x y)) ->
  Forall byte_colour (q_pixels (device p)) ->
  Forall byte_colour (q_pixels (device (_paint_point self pt p))) /\
  Forall2 darker_eq (q_pixels (device (_paint_point self pt p))) (q_pixels (device p)).
Proof.
  intros Hbrush Hbytes. unfold _paint_point. destruct pt as [x y].
  unfold drawEllipse. cbn. apply imap_darker; [|done].
  intros k d Hd. by apply blend_black_darker.
Qed.

Lemma grey_values_mono (l2 l1 : list QColor) :
  Forall2 darker_eq l2 l1 ->
  Forall2 Z.le (map (fun c => rgb2l (red c) (green c) (blue c)) l2)
               (map (fun c => rgb2l (red c) (green c) (blue c)) l1).
Proof.
  induction 1 as [|d c l2 l1 (Hr & Hg & Hb) _ IH]; cbn; constructor; [|done].
  by apply rgb2l_mono.
Qed.

Lemma white_canvas_bytes w h :
  Forall byte_colour (q_pixels (QImage_fill (QImage_new w h) white)).
Proof.
  cbn. apply Forall_map, Forall_true. intros _.
  unfold byte_colour, is_byte. cbn. lia.
Qed.

(** Two brushes at one point against one: no pixel is lighter. *)
Lemma two_points_darker_canvas self w h pt :
  (forall aa g r x y, is_byte (brush_alpha aa g r x y)) ->
  Forall2 Z.le (grey_values (painted_canvas self w h [pt; pt]))
               (grey_values (painted_canvas self w h [pt])).
Proof.
  intros Hbrush. unfold grey_values, painted_canvas, _paint_points. cbn [fold_left].
  apply grey_values_mono.
  match goal with |- context [_paint_point self pt (_paint_point self pt ?p)] =>
    destruct (paint_point_darkens self pt p Hbrush) as [Hb1 _];
    [apply white_canvas_bytes|];
    by destruct (paint_point_darkens self pt (_paint_point self pt p) Hbrush Hb1)
  end.
Qed.

Lemma no_points_canvas self w h :
  0 < w -> 0 < h ->
  grey_values (painted_canvas self w h []) = repeat 255 (Z.to_nat (w * h)).
Proof.
  intros Hw Hh. unfold grey_values, painted_canvas, _paint_points, QImage_new. cbn.
  rewrite (proj2 (Z.ltb_lt 0 w) Hw), (proj2 (Z.ltb_lt 0 h) Hh). cbn.
  induction (Z.to_nat (w * h)) as [|n IH]; [done|]. cbn. by rewrite IH.
Qed.

(** What [PySideGreyHeatmapper.heatmap] does on a canvas of positive size:
    it adds two images to the store and returns the grey image of the
    painted canvas. *)
Lemma pyside_heatmap_wp self w h pts hp Φ :
  0 < w -> 0 < h ->
  (forall l hp', hp !! l = None -> hp ⊆ hp' ->
     hp' !! l = Some (OImage (mkImage L (w, h) [grey_values (painted_canvas self w h pts)])) ->
     Φ (inr l) hp') ->
  wp (PySideGreyHeatmapper_heatmap self w h pts) hp Φ.
Proof.
  intros Hw Hh HΦ.
  destruct (painted_canvas_shape self w h pts Hw Hh) as (Ew & Eh & El).
  unfold PySideGreyHeatmapper_heatmap. fold white. fold (painted_canvas self w h pts).
  unfold _qimage_to_pil_image, QImage_isNull, Image_convert.
  destruct (q_pixels (painted_canvas self w h pts)) as [|c px] eqn:Epx.
  { cbn in El. lia. }
  rewrite <- Epx. repeat wp_step.
  apply HΦ.
  - done.
  - heap_subseteq.
  - rewrite lookup_insert_eq. do 2 f_equal. unfold convert. cbn.
    rewrite Ew, Eh. f_equal. unfold grey_values.
    by rewrite zip3_map, !map_map.
Qed.

(** * Colouring *)

Lemma to_uint8_byte c : is_byte (to_uint8 c).
Proof. unfold to_uint8, is_byte. pose proof (Z.mod_pos_bound (py_int (c * 255)) 256). lia. Qed.

Lemma py_int_zero q : (q == 0)%Q -> py_int q = 0.
Proof.
  intros Hq. rewrite py_int_nonneg by (rewrite Hq; apply Qle_refl).
  by rewrite Hq.
Qed.

Lemma cmap_bytes_bytes cm v :
  let '(r, g, b, a) := cmap_bytes cm v in
  is_byte r /\ is_byte g /\ is_byte b /\ is_byte a.
Proof.
  unfold cmap_bytes. destruct (cmap_lookup cm v) as [[[r g] b] a].
  repeat split; apply to_uint8_byte.
Qed.

Lemma cmap_bytes_alpha cm v : (cmap_bytes cm v).2 = to_uint8 (cmap_lookup cm v).2.
Proof. unfold cmap_bytes. by destruct (cmap_lookup cm v) as [[[r g] b] a]. Qed.

Lemma colourised_wf cm w h g :
  0 <= w -> 0 <= h -> length g = Z.to_nat (w * h) -> wf_image (colourised cm (w, h) g).
Proof.
  intros Hw Hh Hlen. unfold wf_image, colourised, im_area, im_width, im_height. cbn.
  split; [done|]. split; [done|]. split; [done|].
  repeat (apply Forall_cons; split); try done;
    (split; [by rewrite !length_map|]);
    apply Forall_map, Forall_map, Forall_true; intros v;
    pose proof (cmap_bytes_bytes cm v) as Hb;
    destruct (cmap_bytes cm v) as [[[r g'] b] a]; cbn; tauto.
Qed.

Lemma colourise_wp self img hm sz g h Φ :
  h !! self = Some (OHeatmapper hm) ->
  h !! img = Some (OImage (mkImage L sz [g])) ->
  (forall l h', h !! l = None -> h ⊆ h' ->
     h' !! l = Some (OImage (colourised (cmap hm) sz g)) -> Φ (inr l) h') ->
  wp (_colourise self img) h Φ.
Proof.
  intros Hself Himg HΦ. unfold _colourise. repeat wp_step. cbn [im_mode].
  repeat wp_step. apply HΦ; [done|heap_subseteq|]. by rewrite lookup_insert_eq.
Qed.

(** * heatmap *)

Lemma heatmap_unfold self w h pts bp bi :
  heatmap self w h pts bp bi =
  (let* hm := get_heatmapper self in
   let* heatmap := GreyHeatMapper_heatmap (grey_heatmapper hm) w h pts in
   let* heatmap := _colourise self heatmap in
   let* hm := get_heatmapper self in
   let* heatmap := _to_opacity heatmap (_opacity hm) in
   compose_background bp bi heatmap).
Proof. reflexivity. Qed.

Lemma grey_values_length g w h pts :
  0 < w -> 0 < h -> length (grey_values (painted_canvas g w h pts)) = Z.to_nat (w * h).
Proof.
  intros Hw Hh. unfold grey_values. rewrite length_map.
  by destruct (painted_canvas_shape g w h pts Hw Hh) as (_ & _ & ->).
Qed.

(** With the default rasterizer and a canvas of positive size, the three
    stages before the background add objects to the store and hand the
    overlay to the last lines. *)
Lemma heatmap_wp self hm g w h pts bp bi hp Φ :
  hp !! self = Some (OHeatmapper hm) -> grey_heatmapper hm = PySide g ->
  0 < w -> 0 < h ->
  (forall l hp', hp !! l = None -> hp ⊆ hp' ->
     hp' !! l = Some (OImage (overlay hm g w h pts)) ->
     wp (compose_background bp bi l) hp' Φ) ->
  wp (heatmap self w h pts bp bi) hp Φ.
Proof.
  intros Hself Hgrey Hw Hh HΦ. rewrite heatmap_unfold.
  repeat wp_step. rewrite Hgrey. cbn [GreyHeatMapper_heatmap].
  apply pyside_heatmap_wp; [done..|]. intros l1 h1 F1 S1 L1.
  wp_step. eapply colourise_wp; [by eapply lookup_weaken|done|].
  intros l2 h2 F2 S2 L2.
  assert (hp ⊆ h2) as S02 by (by etrans).
  wp_step. eapply wp_get_heatmapper; [by eapply lookup_weaken|].
  wp_step. eapply to_opacity_wp; [done| |done|].
  { apply colourised_wf; [lia..|]. by apply grey_values_length. }
  intros l3 h3 F3 S3 L3. apply HΦ; [|by etrans|done].
  eapply lookup_weaken_None; [exact F3|done].
Qed.

Lemma opacity_alpha_zero o : opacity_alpha o 0 = 0.
Proof.
  unfold opacity_alpha. rewrite py_int_zero; [done|].
  change (inject_Z 0) with 0%Q. ring.
Qed.

(** C3: with no points the grey field of size width x height is 255
    everywhere, and for a colour map whose colour for zero density (grey
    value 255) has alpha zero, the heat map returned without a background
    has alpha 0 at every pixel, whatever the opacity. *)
Theorem no_points_is_transparent self hm g w h hp :
  hp !! self = Some (OHeatmapper hm) -> grey_heatmapper hm = PySide g ->
  0 < w -> 0 < h -> (zero_density_alpha (cmap hm) == 0)%Q ->
  (exists lg hg,
     PySideGreyHeatmapper_heatmap g w h [] hp = (inr lg, hg) /\
     hg !! lg = Some (OImage (mkImage L (w, h) [repeat 255 (Z.to_nat (w * h))]))) /\
  (exists l hp' im,
     heatmap self w h [] None None hp = (inr l, hp') /\
     hp' !! l = Some (OImage im) /\ im_mode im = RGBA /\ im_size im = (w, h) /\
     band im 3 = repeat 0 (Z.to_nat (w * h))).
Proof.
  intros Hself Hgrey Hw Hh Hzero. split.
  - destruct (wp_run (PySideGreyHeatmapper_heatmap g w h []) hp
      (fun r hg => exists lg, r = inr lg /\
         hg !! lg = Some (OImage (mkImage L (w, h) [repeat 255 (Z.to_nat (w * h))]))))
      as (r & hg & Hrun & lg & -> & Hres).
    { apply pyside_heatmap_wp; [done..|]. intros l hp' _ _ Hl. exists l.
      by rewrite no_points_canvas in Hl. }
    eauto.
  - destruct (wp_run (heatmap self w h [] None None) hp
      (fun r hp' => exists l, r = inr l /\
         hp' !! l = Some (OImage (overlay hm g w h []))))
      as (r & hp' & Hrun & l & -> & Hres).
    { eapply heatmap_wp; [done..|]. intros l hp' _ _ Hl.
      unfold compose_background. cbn. apply wp_ret. eauto. }
    exists l, hp', (overlay hm g w h []). repeat split; try done.
    unfold overlay. rewrite no_points_canvas by done.
    unfold with_opacity, colourised, band. cbn. rewrite !map_map.
    induction (Z.to_nat (w * h)) as [|n IH]; [done|]. cbn. rewrite IH. f_equal.
    rewrite cmap_bytes_alpha. fold (zero_density_alpha (cmap hm)).
    unfold to_uint8. rewrite py_int_zero; [apply opacity_alpha_zero|].
    rewrite Hzero. ring.
Qed.

(** C2: when [heatmap] is given a width and height and a background image
    (at [base_path] or as [base_img]) whose size is not (width, height), the
    call fails: [Image.alpha_composite] raises [ValueError] ("images do not
    match"), the dimension mismatch error; nothing is resized. *)
Theorem background_size_mismatch_fails self hm g w h pts bp bi bg hp :
  hp !! self = Some (OHeatmapper hm) -> grey_heatmapper hm = PySide g ->
  0 < w -> 0 < h ->
  supplied_background bp bi hp = Some bg -> im_size bg <> (w, h) ->
  (heatmap self w h pts bp bi hp).1 = inl ValueError.
Proof.
  intros Hself Hgrey Hw Hh Hbg Hsize.
  change (wp (heatmap self w h pts bp bi) hp (fun r _ => r = inl ValueError)).
  eapply heatmap_wp; [done..|]. intros l hp' Hnew Hsub Hl.
  unfold compose_background, supplied_background in *.
  assert (wp (if truthy bp then Image_open (default "" bp)
              else match bi with Some l0 => ret l0 | None => raise AttributeError end)
             hp'
             (fun r h' => exists lb, r = inr lb /\ h' !! lb = Some (OImage bg) /\
                          h' !! l = Some (OImage (overlay hm g w h pts)))) as Hback.
  { destruct (truthy bp) eqn:Etruthy.
    - unfold Image_open. rewrite Hbg. wp_step. exists l0.
      rewrite lookup_insert_eq, lookup_insert_ne by congruence. done.
    - destruct bi as [lb|]; [|done].
      destruct (hp !! lb) as [[im|?]|] eqn:Elb; try done.
      wp_step. exists lb. injection Hbg as ->. split; [done|].
      split; [by eapply lookup_weaken|done]. }
  assert (truthy bp || bool_decide (is_Some bi) = true) as ->.
  { destruct (truthy bp); [done|]. destruct bi; [done|]. discriminate. }
  cbn [negb]. wp_step. eapply wp_mono; [exact Hback|].
  intros r h' (lb & -> & Hlb & Hl'). unfold Image_convert, Image_alpha_composite.
  repeat wp_step. cbn [convert im_mode im_size].
  rewrite bool_decide_eq_true_2 by done. cbn [negb].
  rewrite bool_decide_eq_false_2; [by apply wp_raise|].
  intros [_ Heq]. apply Hsize. by rewrite <- Heq.
Qed.

Lemma rgb2l_byte r g b : is_byte r -> is_byte g -> is_byte b -> is_byte (rgb2l r g b).
Proof.
  unfold is_byte, rgb2l. intros. rewrite Z.shiftr_div_pow2 by lia. split.
  - apply Z.div_pos; lia.
  - apply Z.lt_succ_r, Z.div_lt_upper_bound; lia.
Qed.

Lemma grey_values_bytes (img : QImage) :
  Forall byte_colour (q_pixels img) -> Forall is_byte (grey_values img).
Proof.
  intros H. unfold grey_values. apply Forall_map. eapply Forall_impl; [exact H|].
  intros c (Hr & Hg & Hb). by apply rgb2l_byte.
Qed.

(** C7: for every point, diameter and strength, the grey field rasterized
    from two identical points is, at every pixel (the point's own location
    among them), darker than or equal to the field rasterized from one such
    point, and it stays a byte: accumulation darkens and saturates at
    black. *)
Theorem two_points_never_lighter self w h pt hp :
  (forall aa g r x y, is_byte (brush_alpha aa g r x y)) ->
  0 < w -> 0 < h ->
  exists l1 h1 l2 h2 g1 g2,
    PySideGreyHeatmapper_heatmap self w h [pt] hp = (inr l1, h1) /\
    h1 !! l1 = Some (OImage (mkImage L (w, h) [g1])) /\
    PySideGreyHeatmapper_heatmap self w h [pt; pt] hp = (inr l2, h2) /\
    h2 !! l2 = Some (OImage (mkImage L (w, h) [g2])) /\
    length g1 = Z.to_nat (w * h) /\
    Forall2 Z.le g2 g1 /\ Forall is_byte g2.
Proof.
  intros Hbrush Hw Hh.
  destruct (wp_run (PySideGreyHeatmapper_heatmap self w h [pt]) hp
    (fun r h1 => exists l1, r = inr l1 /\ h1 !! l1 =
       Some (OImage (mkImage L (w, h) [grey_values (painted_canvas self w h [pt])]))))
    as (r1 & h1 & Hrun1 & l1 & -> & Hres1).
  { apply pyside_heatmap_wp; [done..|]. eauto. }
  destruct (wp_run (PySideGreyHeatmapper_heatmap self w h [pt; pt]) hp
    (fun r h2 => exists l2, r = inr l2 /\ h2 !! l2 =
       Some (OImage (mkImage L (w, h) [grey_values (painted_canvas self w h [pt; pt])]))))
    as (r2 & h2 & Hrun2 & l2 & -> & Hres2).
  { apply pyside_heatmap_wp; [done..|]. eauto. }
  exists l1, h1, l2, h2, (grey_values (painted_canvas self w h [pt])),
    (grey_values (painted_canvas self w h [pt; pt])).
  repeat split; try done.
  - by apply grey_values_length.
  - by apply two_points_darker_canvas.
  - apply grey_values_bytes. unfold painted_canvas, _paint_points. cbn [fold_left].
    match goal with |- context [_paint_point self pt (_paint_point self pt ?p)] =>
      destruct (paint_point_darkens self pt p Hbrush) as [Hb1 _];
      [apply white_canvas_bytes|];
      by destruct (paint_point_darkens self pt (_paint_point self pt p) Hbrush Hb1)
    end.
Qed.


(** * Construction *)

Lemma preset_files_other s : s <> "default" -> s <> "reveal" -> preset_files !! s = None.
Proof.
  intros H1 H2. unfold preset_files.
  rewrite lookup_insert_ne by done. by rewrite lookup_singleton_ne.
Qed.

(** C9: a [colours] string other than the two presets is taken as the path
    of the reference image, which the constructor opens: construction is
    [_cmap_from_image_path] on that very string followed by the allocation
    of the object, and when no readable image is at that path it fails with
    the [OSError] of [Image.open] (the file access error); there is no other
    error for an unknown preset name. *)
Theorem unknown_colours_is_a_path point_diameter alpha_strength opacity s grey hp :
  s <> "default" -> s <> "reveal" ->
  Heatmapper__init__ point_diameter alpha_strength opacity (ColoursStr s) grey hp =
    (let* cmap0 := _cmap_from_image_path s in
     alloc (OHeatmapper (mkHeatmapper opacity cmap0
              match grey with
              | GreyPySide =>
                  PySide (PySideGreyHeatmapper__init__ point_diameter alpha_strength)
              | GreyObject g => Custom g
              end))) hp /\
  (files !! s = None ->
   Heatmapper__init__ point_diameter alpha_strength opacity (ColoursStr s) grey hp =
     (inl OSError, hp)).
Proof.
  intros H1 H2.
  assert (py_or (preset_files !! s) s = s) as Hpath.
  { by rewrite preset_files_other. }
  split.
  - unfold Heatmapper__init__. by rewrite Hpath.
  - intros Hmissing. unfold Heatmapper__init__. rewrite Hpath.
    unfold _cmap_from_image_path, Image_open, bind. by rewrite Hmissing.
Qed.


(** * Frame: calls only add objects *)

Lemma grows_ret {A} (a : A) : grows (ret a).
Proof. by intros h. Qed.

Lemma grows_raise {A} e : grows (@raise A e).
Proof. by intros h. Qed.

Lemma grows_alloc o : grows (alloc o).
Proof. intros h. apply insert_subseteq, not_elem_of_dom, is_fresh. Qed.

Lemma grows_get_image l : grows (get_image l).
Proof. intros h. unfold get_image. by repeat case_match. Qed.

Lemma grows_get_heatmapper l : grows (get_heatmapper l).
Proof. intros h. unfold get_heatmapper. by repeat case_match. Qed.

Lemma grows_bind {A B} (m : M A) (k : A -> M B) :
  grows m -> (forall a, grows (k a)) -> grows (bind m k).
Proof.
  intros Hm Hk h. unfold bind. specialize (Hm h).
  destruct (m h) as [[e|a] h1]; [done|]. cbn in Hm. etrans; [exact Hm|]. apply Hk.
Qed.

Lemma grows_mapM {A B} (f : A -> M B) l : (forall a, grows (f a)) -> grows (mapM f l).
Proof.
  intros Hf. induction l as [|a l IH]; cbn; [apply grows_ret|].
  apply grows_bind; [done|]. intros b. apply grows_bind; [done|].
  intros bs. apply grows_ret.
Qed.

Lemma bind_result {A B} (m : M A) (k : A -> M B) h b :
  (bind m k h).1 = inr b -> exists a h1, m h = (inr a, h1) /\ (k a h1).1 = inr b.
Proof. unfold bind. destruct (m h) as [[e|a] h1]; [done|]. eauto. Qed.

Lemma allocates_grows m : allocates m -> grows m.
Proof. intros H h. apply H. Qed.

Lemma allocates_alloc o : allocates (alloc o).
Proof.
  intros h. split; [apply grows_alloc|]. intros l [= <-].
  apply not_elem_of_dom, is_fresh.
Qed.

Lemma allocates_raise e : allocates (raise e).
Proof. intros h. by split. Qed.

Lemma allocates_bind {A} (m : M A) (k : A -> M loc) :
  grows m -> (forall a, allocates (k a)) -> allocates (bind m k).
Proof.
  intros Hm Hk h. split.
  - apply grows_bind; [done|]. intros a. apply allocates_grows, Hk.
  - intros l Hl. apply bind_result in Hl as (a & h1 & Hrun & Hl).
    eapply lookup_weaken_None; [by apply (Hk a h1)|].
    specialize (Hm h). by rewrite Hrun in Hm.
Qed.

Lemma allocates_Image_open path : allocates (Image_open path).
Proof.
  unfold Image_open. destruct (files !! path); [apply allocates_alloc|apply allocates_raise].
Qed.

Lemma allocates_Image_copy l : allocates (Image_copy l).
Proof. apply allocates_bind; [apply grows_get_image|]. intros. apply allocates_alloc. Qed.

Lemma allocates_Image_convert l m : allocates (Image_convert l m).
Proof. apply allocates_bind; [apply grows_get_image|]. intros. apply allocates_alloc. Qed.

Lemma allocates_Image_point l f : allocates (Image_point l f).
Proof. apply allocates_bind; [apply grows_get_image|]. intros. apply allocates_alloc. Qed.

Lemma allocates_Image_alpha_composite l1 l2 : allocates (Image_alpha_composite l1 l2).
Proof.
  apply allocates_bind; [apply grows_get_image|]. intros im1.
  apply allocates_bind; [apply grows_get_image|]. intros im2.
  repeat case_match; first [apply allocates_raise | apply allocates_alloc].
Qed.

Lemma grows_Image_split l : grows (Image_split l).
Proof.
  apply grows_bind; [apply grows_get_image|]. intros im.
  apply grows_mapM. intros b. apply grows_alloc.
Qed.

Lemma allocates_qimage_to_pil_image qimg : allocates (_qimage_to_pil_image qimg).
Proof.
  unfold _qimage_to_pil_image. case_match; [apply allocates_raise|apply allocates_alloc].
Qed.

Lemma allocates_GreyHeatMapper_heatmap g w h pts :
  allocates (GreyHeatMapper_heatmap g w h pts).
Proof.
  destruct g as [self|rasterize]; cbn.
  - apply allocates_bind; [apply allocates_grows, allocates_qimage_to_pil_image|].
    intros im. apply allocates_Image_convert.
  - destruct (rasterize w h pts); [apply allocates_raise|apply allocates_alloc].
Qed.

Lemma allocates_colourise self img : allocates (_colourise self img).
Proof.
  apply allocates_bind; [apply grows_get_image|]. intros im.
  apply allocates_bind; [apply grows_get_heatmapper|]. intros hm.
  case_match; first [apply allocates_raise | apply allocates_alloc].
Qed.

Lemma frames_grows {A} h0 (m : M A) : grows m -> frames h0 m.
Proof. intros Hm h Hh. etrans; [exact Hh|apply Hm]. Qed.

Lemma frames_bind {A B} h0 (m : M A) (k : A -> M B) :
  frames h0 m -> (forall a, frames h0 (k a)) -> frames h0 (bind m k).
Proof.
  intros Hm Hk h Hh. unfold bind. specialize (Hm h Hh).
  destruct (m h) as [[e|a] h1]; [done|]. by apply Hk.
Qed.

(** Writing to an object that is not in [h0] keeps [h0]. *)
Lemma frames_set_image h0 l im : h0 !! l = None -> frames h0 (set_image l im).
Proof. intros Hl h Hh. by apply insert_subseteq_r. Qed.

Lemma frames_Image_putalpha h0 l a : h0 !! l = None -> frames h0 (Image_putalpha l a).
Proof.
  intros Hl. unfold Image_putalpha.
  apply frames_bind; [apply frames_grows, grows_get_image|]. intros im.
  apply frames_bind; [apply frames_grows, grows_get_image|]. intros al.
  repeat case_match;
    first [apply frames_grows, grows_raise | by apply frames_set_image].
Qed.

Lemma grows_list_index {A} (l : list A) k : grows (list_index l k).
Proof. unfold list_index. case_match; [apply grows_ret|apply grows_raise]. Qed.

Lemma allocates_bind_keep (m : M loc) (k : loc -> M loc) :
  allocates m ->
  (forall a h0, h0 !! a = None -> frames h0 (k a)) ->
  (forall a h l, (k a h).1 = inr l -> l = a) ->
  allocates (bind m k).
Proof.
  intros Hm Hk Hret h. destruct (Hm h) as [Hsub Hnew]. unfold bind.
  destruct (m h) as [[e|a] h1]; cbn [fst snd] in *; [by split|]. split.
  - by apply (Hk a h (Hnew a eq_refl) h1).
  - intros l Hl. apply Hret in Hl as ->. by apply Hnew.
Qed.

(** [_to_opacity] writes only to the copy it has made, and returns it. *)
Lemma allocates_to_opacity l opacity : allocates (_to_opacity l opacity).
Proof.
  unfold _to_opacity. apply allocates_bind_keep; [apply allocates_Image_copy| |].
  - intros l1 h0 Hnew.
    apply frames_bind; [apply frames_grows, grows_Image_split|]. intros bands.
    apply frames_bind; [apply frames_grows, grows_list_index|]. intros alpha0.
    apply frames_bind; [apply frames_grows, allocates_grows, allocates_Image_point|].
    intros alpha1.
    apply frames_bind; [by apply frames_Image_putalpha|]. intros _.
    apply frames_grows, grows_ret.
  - intros l1 h l' Hl'.
    apply bind_result in Hl' as (bands & h2 & _ & Hl').
    apply bind_result in Hl' as (alpha0 & h3 & _ & Hl').
    apply bind_result in Hl' as (alpha1 & h4 & _ & Hl').
    apply bind_result in Hl' as (u & h5 & _ & Hl').
    by injection Hl' as <-.
Qed.

Lemma grows_compose_background bp bi l : grows (compose_background bp bi l).
Proof.
  unfold compose_background. case_match; [apply grows_ret|].
  apply grows_bind.
  { repeat case_match;
      first [apply allocates_grows, allocates_Image_open | apply grows_ret | apply grows_raise]. }
  intros bg. apply grows_bind; [apply allocates_grows, allocates_Image_convert|].
  intros bg'. apply allocates_grows, allocates_Image_alpha_composite.
Qed.

(** What [heatmap] returns is the overlay or the new composite. *)
Lemma compose_background_result bp bi l h l' :
  (compose_background bp bi l h).1 = inr l' -> l' = l \/ h !! l' = None.
Proof.
  unfold compose_background. case_match.
  - intros [= <-]. by left.
  - intros Hl'. right.
    apply bind_result in Hl' as (bg & h1 & Hrun1 & Hl').
    apply bind_result in Hl' as (bg' & h2 & Hrun2 & Hl').
    apply (allocates_Image_alpha_composite bg' l h2) in Hl'.
    eapply lookup_weaken_None; [exact Hl'|].
    etrans; [|pose proof (allocates_grows _ (allocates_Image_convert bg RGBA) h1) as G;
              by rewrite Hrun2 in G].
    assert (grows (if truthy bp then Image_open (default "" bp)
                   else match bi with Some l0 => ret l0 | None => raise AttributeError end))
      as G1.
    { repeat case_match;
        first [apply allocates_grows, allocates_Image_open | apply grows_ret | apply grows_raise]. }
    specialize (G1 h). by rewrite Hrun1 in G1.
Qed.

Lemma allocates_heatmap self w h pts bp bi : allocates (heatmap self w h pts bp bi).
Proof.
  rewrite heatmap_unfold.
  apply allocates_bind; [apply grows_get_heatmapper|]. intros hm.
  apply allocates_bind; [apply allocates_grows, allocates_GreyHeatMapper_heatmap|].
  intros l1.
  apply allocates_bind; [apply allocates_grows, allocates_colourise|]. intros l2.
  apply allocates_bind; [apply grows_get_heatmapper|]. intros hm'.
  intros hp. split.
  - apply grows_bind; [apply allocates_grows, allocates_to_opacity|].
    intros l3. apply grows_compose_background.
  - intros l Hl. apply bind_result in Hl as (l3 & h3 & Hrun & Hl).
    destruct (allocates_to_opacity l2 (_opacity hm') hp) as [Hsub Hnew].
    rewrite Hrun in Hsub, Hnew. cbn in Hsub. specialize (Hnew l3 eq_refl).
    apply compose_background_result in Hl as [->|Hl]; [done|].
    by eapply lookup_weaken_None.
Qed.

(** C8: a call of [heatmap], whether it returns or raises, leaves every
    object that was in the store as it was: the [Heatmapper] with its colour
    map, opacity and grey heatmapper (diameter and strength), and the images
    of earlier calls; the image it returns is a new object.  So a second
    call finds the configuration the first one found. *)
Theorem heatmap_keeps_configuration self w h pts bp bi hp :
  (forall l o, hp !! l = Some o -> (heatmap self w h pts bp bi hp).2 !! l = Some o) /\
  (forall l, (heatmap self w h pts bp bi hp).1 = inr l -> hp !! l = None) /\
  (forall w' h' pts' bp' bi' l o, hp !! l = Some o ->
     (heatmap self w' h' pts' bp' bi' (heatmap self w h pts bp bi hp).2).2 !! l = Some o).
Proof.
  destruct (allocates_heatmap self w h pts bp bi hp) as [Hsub Hnew].
  split; [|split].
  - intros l o Hl. by eapply lookup_weaken.
  - done.
  - intros w' h' pts' bp' bi' l o Hl.
    destruct (allocates_heatmap self w' h' pts' bp' bi'
                (heatmap self w h pts bp bi hp).2) as [Hsub' _].
    eapply lookup_weaken; [|exact Hsub']. by eapply lookup_weaken.
Qed.

(** * Colour maps built from an image *)






















(** * Further properties of the program *)

Lemma overlay_wf hm g w h pts :
  0 < w -> 0 < h -> wf_image (overlay hm g w h pts).
Proof.
  intros Hw Hh. unfold overlay. apply with_opacity_wf; [|done].
  apply colourised_wf; [lia..|]. by apply grey_values_length.
Qed.

(** X1: the heat map alone: with the default rasterizer and a canvas of
    positive size, a call without background returns, for every list of
    points, a new well-formed [RGBA] image of the requested size. *)
Theorem heatmap_alone_returns_overlay self hm g w h pts hp :
  hp !! self = Some (OHeatmapper hm) -> grey_heatmapper hm = PySide g ->
  0 < w -> 0 < h ->
  exists l hp' im,
    heatmap self w h pts None None hp = (inr l, hp') /\
    hp' !! l = Some (OImage im) /\ hp !! l = None /\
    wf_image im /\ im_mode im = RGBA /\ im_size im = (w, h).
Proof.
  intros Hself Hgrey Hw Hh.
  destruct (wp_run (heatmap self w h pts None None) hp
    (fun r hp' => exists l, r = inr l /\ hp !! l = None /\
       hp' !! l = Some (OImage (overlay hm g w h pts))))
    as (r & hp' & Hrun & l & -> & Hnew & Hres).
  { eapply heatmap_wp; [done..|]. intros l hp' Hnew _ Hl.
    unfold compose_background. cbn. apply wp_ret. eauto. }
  exists l, hp', (overlay hm g w h pts). repeat split; try done.
  all: by apply overlay_wf.
Qed.

(** The last lines of [heatmap] for a background of the overlay's size:
    the composite is a new [RGBA] image of that size, and the background
    object is left as it is. *)
Lemma compose_over_image_wp lb bg l ov hp Φ :
  hp !! lb = Some (OImage bg) -> hp !! l = Some (OImage ov) ->
  im_mode ov = RGBA -> im_size ov = im_size bg ->
  (forall l' hp' im, hp !! l' = None -> hp ⊆ hp' ->
     hp' !! l' = Some (OImage im) -> im_mode im = RGBA -> im_size im = im_size bg ->
     Φ (inr l') hp') ->
  wp (let* background := Image_convert lb RGBA in Image_alpha_composite background l) hp Φ.
Proof.
  intros Hlb Hl Hmode Hsize HΦ. unfold Image_convert, Image_alpha_composite.
  repeat wp_step. cbn [convert im_mode im_size].
  rewrite bool_decide_eq_true_2 by done. cbn [negb].
  rewrite bool_decide_eq_true_2 by done. cbn [negb].
  repeat wp_step. eapply HΦ; [done|heap_subseteq|apply lookup_insert_eq|done..].
Qed.

(** X3: [heatmap_on_img] takes the canvas size from the image, so the
    composite always fits: for an image of positive size it returns a new
    [RGBA] image of the image's size, and the image itself is not changed. *)
Theorem heatmap_on_img_fits self hm g pts img bg hp :
  hp !! self = Some (OHeatmapper hm) -> grey_heatmapper hm = PySide g ->
  hp !! img = Some (OImage bg) -> 0 < im_width bg -> 0 < im_height bg ->
  exists l hp' im,
    heatmap_on_img self pts img hp = (inr l, hp') /\
    hp' !! l = Some (OImage im) /\ hp !! l = None /\
    im_mode im = RGBA /\ im_size im = im_size bg /\
    hp' !! img = Some (OImage bg).
Proof.
  clear resample module_dir. intros Hself Hgrey Himg Hw Hh.
  destruct (wp_run (heatmap_on_img self pts img) hp
    (fun r hp' => exists l im, r = inr l /\ hp' !! l = Some (OImage im) /\
       hp !! l = None /\ im_mode im = RGBA /\ im_size im = im_size bg /\
       hp' !! img = Some (OImage bg)))
    as (r & hp' & Hrun & l & im & -> & Hres).
  { unfold heatmap_on_img. repeat wp_step.
    eapply heatmap_wp; [done..|]. intros l hp1 Hnew Hsub Hl.
    unfold compose_background. cbn [truthy orb].
    rewrite bool_decide_eq_true_2 by eauto. cbn [negb].
    wp_step. wp_step.
    eapply compose_over_image_wp; [by eapply lookup_weaken|done|done| |].
    { unfold overlay, with_opacity, colourised, im_width, im_height. cbn.
      by destruct (im_size bg). }
    intros l' hp2 im Hnew2 Hsub2 Hl2 Hmode2 Hsize2. exists l', im.
    repeat split; try done.
    - by eapply lookup_weaken_None.
    - eapply lookup_weaken; [|exact Hsub2]. by eapply lookup_weaken. }
  exists l, hp', im. tauto.
Qed.

(** X4: [heatmap_on_base_path] with no readable image at the path fails with
    the [OSError] of [Image.open] at once: nothing is rasterized and the
    store is as it was. *)
Theorem heatmap_on_missing_path_fails self pts base_path hp :
  files !! base_path = None ->
  heatmap_on_base_path self pts base_path hp = (inl OSError, hp).
Proof.
  intros Hmissing. unfold heatmap_on_base_path, Image_open, bind. by rewrite Hmissing.
Qed.

(** X5: [heatmap_on_base_path] with an image of positive size at a (non-empty)
    path returns a new [RGBA] image of that image's size. *)
Theorem heatmap_on_base_path_fits self hm g pts base_path bg hp :
  hp !! self = Some (OHeatmapper hm) -> grey_heatmapper hm = PySide g ->
  base_path <> "" -> files !! base_path = Some bg ->
  0 < im_width bg -> 0 < im_height bg ->
  exists l hp' im,
    heatmap_on_base_path self pts base_path hp = (inr l, hp') /\
    hp' !! l = Some (OImage im) /\ hp !! l = None /\
    im_mode im = RGBA /\ im_size im = im_size bg.
Proof.
  clear resample module_dir. intros Hself Hgrey Hpath Hfile Hw Hh.
  destruct (wp_run (heatmap_on_base_path self pts base_path) hp
    (fun r hp' => exists l im, r = inr l /\ hp' !! l = Some (OImage im) /\
       hp !! l = None /\ im_mode im = RGBA /\ im_size im = im_size bg))
    as (r & hp' & Hrun & l & im & -> & Hres).
  { unfold heatmap_on_base_path, Image_open. rewrite Hfile. repeat wp_step.
    eapply heatmap_wp; [heap_lookup|done..|]. intros lo hp1 Hnew Hsub Hl.
    unfold compose_background.
    assert (truthy (Some base_path) = true) as ->.
    { cbn. by destruct (String.eqb_spec base_path ""). }
    cbn [orb negb]. change (default "" (Some base_path)) with base_path.
    unfold Image_open. rewrite Hfile.
    wp_step. wp_step.
    eapply compose_over_image_wp; [apply lookup_insert_eq| | | |].
    - rewrite lookup_insert_ne by congruence. done.
    - done.
    - unfold overlay, with_opacity, colourised, im_width, im_height. cbn.
      by destruct (im_size bg).
    - intros l' hp2 im Hnew2 Hsub2 Hl2 Hmode2 Hsize2. exists l', im.
      repeat split; try done.
      apply lookup_insert_None in Hnew2 as [Hnew2 _].
      eapply lookup_weaken_None; [exact Hnew2|].
      etrans; [|exact Hsub]. by apply insert_subseteq. }
  exists l, hp', im. tauto.
Qed.

(** ** The rasterizer *)

Lemma darker_eq_trans : forall a b c, darker_eq a b -> darker_eq b c -> darker_eq a c.
Proof. unfold darker_eq. intros a b c ? ?. lia. Qed.

Lemma Forall2_darker_refl (l : list QColor) : Forall2 darker_eq l l.
Proof. induction l; constructor; [unfold darker_eq; lia|done]. Qed.

Lemma Forall2_darker_trans (l1 l2 l3 : list QColor) :
  Forall2 darker_eq l1 l2 -> Forall2 darker_eq l2 l3 -> Forall2 darker_eq l1 l3.
Proof.
  intros H12. revert l3. induction H12 as [|a b l1 l2 Hab _ IH]; intros l3 H23;
    inversion H23; subst; constructor; [by eapply darker_eq_trans|by apply IH].
Qed.

(** Painting any further points never lightens a pixel, and keeps every
    channel a byte. *)
Lemma paint_more_darkens self extra p :
  (forall aa g r x y, is_byte (brush_alpha aa g r x y)) ->
  Forall byte_colour (q_pixels (device p)) ->
  let p' := fold_left (fun p pt => _paint_point self pt p) extra p in
  Forall byte_colour (q_pixels (device p')) /\
  Forall2 darker_eq (q_pixels (device p')) (q_pixels (device p)).
Proof.
  intros Hbrush. revert p. induction extra as [|pt extra IH]; intros p Hbytes; cbn.
  - split; [done|apply Forall2_darker_refl].
  - destruct (paint_point_darkens self pt p Hbrush Hbytes) as [Hb1 Hd1].
    destruct (IH _ Hb1) as [Hb2 Hd2]. split; [done|].
    by eapply Forall2_darker_trans.
Qed.

Lemma painted_canvas_bytes self w h pts :
  (forall aa g r x y, is_byte (brush_alpha aa g r x y)) ->
  Forall byte_colour (q_pixels (painted_canvas self w h pts)).
Proof.
  intros Hbrush. unfold painted_canvas, _paint_points.
  match goal with |- context [fold_left ?f pts ?p] =>
    destruct (paint_more_darkens self pts p Hbrush) as [Hb _]; [|exact Hb] end.
  apply white_canvas_bytes.
Qed.

(** X9: accumulation only darkens: the grey field of a list of points followed
    by any further points is, at every pixel, darker than or equal to the
    field of the list alone. *)
Theorem more_points_never_lighter self w h pts extra hp :
  (forall aa g r x y, is_byte (brush_alpha aa g r x y)) ->
  0 < w -> 0 < h ->
  exists l1 h1 l2 h2 g1 g2,
    PySideGreyHeatmapper_heatmap self w h pts hp = (inr l1, h1) /\
    h1 !! l1 = Some (OImage (mkImage L (w, h) [g1])) /\
    PySideGreyHeatmapper_heatmap self w h (pts ++ extra) hp = (inr l2, h2) /\
    h2 !! l2 = Some (OImage (mkImage L (w, h) [g2])) /\
    Forall2 Z.le g2 g1.
Proof.
  intros Hbrush Hw Hh.
  destruct (wp_run (PySideGreyHeatmapper_heatmap self w h pts) hp
    (fun r h1 => exists l1, r = inr l1 /\ h1 !! l1 =
       Some (OImage (mkImage L (w, h) [grey_values (painted_canvas self w h pts)]))))
    as (r1 & h1 & Hrun1 & l1 & -> & Hres1).
  { apply pyside_heatmap_wp; [done..|]. eauto. }
  destruct (wp_run (PySideGreyHeatmapper_heatmap self w h (pts ++ extra)) hp
    (fun r h2 => exists l2, r = inr l2 /\ h2 !! l2 =
       Some (OImage (mkImage L (w, h)
               [grey_values (painted_canvas self w h (pts ++ extra))]))))
    as (r2 & h2 & Hrun2 & l2 & -> & Hres2).
  { apply pyside_heatmap_wp; [done..|]. eauto. }
  exists l1, h1, l2, h2, (grey_values (painted_canvas self w h pts)),
    (grey_values (painted_canvas self w h (pts ++ extra))).
  repeat split; try done.
  unfold grey_values. apply grey_values_mono.
  unfold painted_canvas, _paint_points. rewrite fold_left_app.
  match goal with |- context [fold_left ?f extra ?p] =>
    destruct (paint_more_darkens self extra p Hbrush) as [_ Hd]; [|exact Hd] end.
  apply (painted_canvas_bytes self w h pts Hbrush).
Qed.

(** X10: the grey field is a well-formed image: for every list of points the
    rasterizer returns a new single-band image of the requested size whose
    values are all bytes (0 = black, 255 = white), and changes no object
    of the store. *)
Theorem grey_field_is_well_formed self w h pts hp :
  (forall aa g r x y, is_byte (brush_alpha aa g r x y)) ->
  0 < w -> 0 < h ->
  exists l hp' im,
    PySideGreyHeatmapper_heatmap self w h pts hp = (inr l, hp') /\
    hp' !! l = Some (OImage im) /\ hp !! l = None /\ hp ⊆ hp' /\
    im_mode im = L /\ im_size im = (w, h) /\ wf_image im.
Proof.
  intros Hbrush Hw Hh.
  destruct (wp_run (PySideGreyHeatmapper_heatmap self w h pts) hp
    (fun r hp' => exists l, r = inr l /\ hp !! l = None /\ hp ⊆ hp' /\ hp' !! l =
       Some (OImage (mkImage L (w, h) [grey_values (painted_canvas self w h pts)]))))
    as (r & hp' & Hrun & l & -> & Hnew & Hsub & Hres).
  { apply pyside_heatmap_wp; [done..|]. eauto. }
  eexists l, hp', _. repeat split; try done; cbn; try lia.
  apply Forall_cons. split; [|done]. split.
  - unfold im_area, im_width, im_height. cbn. by apply grey_values_length.
  - by apply grey_values_bytes, painted_canvas_bytes.
Qed.

Lemma py_int_nonpos q : (q <= 0)%Q -> py_int q <= 0.
Proof.
  intros Hq. unfold py_int. destruct (Qlt_le_dec q 0) as [Hlt|Hge].
  - rewrite <- (Qceiling_Z 0). by apply Qceiling_resp_le.
  - rewrite <- (Qfloor_Z 0). by apply Qfloor_resp_le.
Qed.

Lemma paint_point_strength self self' pt p :
  dm self = dm self' ->
  Z.max (point_strength self) 0 = Z.max (point_strength self') 0 ->
  _paint_point self pt p = _paint_point self' pt p.
Proof. intros Hdm Hs. unfold _paint_point. destruct pt as [x y]. by rewrite Hdm, Hs. Qed.

(** X11: a strength that is not positive paints nothing darker than strength 0
    does: [max(point_strength, 0)] makes the rasterizer built with an
    [alpha_strength <= 0] behave as the one built with strength 0. *)
Theorem nonpositive_strength_is_zero_strength point_diameter alpha_strength w h pts hp :
  (alpha_strength <= 0)%Q ->
  PySideGreyHeatmapper_heatmap (PySideGreyHeatmapper__init__ point_diameter alpha_strength)
    w h pts hp =
  PySideGreyHeatmapper_heatmap (PySideGreyHeatmapper__init__ point_diameter 0) w h pts hp.
Proof.
  intros Hs. unfold PySideGreyHeatmapper_heatmap. do 2 f_equal.
  unfold _paint_points. f_equal.
  match goal with |- fold_left _ _ ?p = _ => generalize p end.
  induction pts as [|pt pts IH]; intros p; [done|]. cbn [fold_left].
  rewrite <- IH. f_equal. apply paint_point_strength; [done|]. cbn.
  assert (py_int (alpha_strength * 255) <= 0) by (apply py_int_nonpos; nra).
  change (py_int (0 * 255)) with 0. lia.
Qed.

(** X12: an [alpha_strength] in [0, 1] gives a point strength that is a valid
    alpha, 0..255, growing with the strength; the diameter is kept. *)
Theorem strength_is_a_byte point_diameter s s' :
  (0 <= s <= s')%Q -> (s' <= 1)%Q ->
  let g := PySideGreyHeatmapper__init__ point_diameter s in
  let g' := PySideGreyHeatmapper__init__ point_diameter s' in
  dm g = point_diameter /\
  0 <= point_strength g <= point_strength g' /\ point_strength g' <= 255.
Proof.
  intros [H0 Hss] H1. cbv zeta.
  unfold PySideGreyHeatmapper__init__, GreyHeatMapper__init__. cbn [dm point_strength].
  assert (0 <= s * 255)%Q as Hs by nra.
  assert (s * 255 <= s' * 255)%Q as Hss' by nra.
  assert (s' * 255 <= 255)%Q as Hs' by nra.
  split; [done|].
  rewrite !py_int_nonneg by lra. repeat split.
  - rewrite <- (Qfloor_Z 0). by apply Qfloor_resp_le.
  - by apply Qfloor_resp_le.
  - rewrite <- (Qfloor_Z 255). by apply Qfloor_resp_le.
Qed.

(** ** The opacity stage *)



Lemma wp_split_bands (sz : Z * Z) (bs : list (list Z)) h Φ :
  (forall ls h', length ls = length bs -> h ⊆ h' -> Φ (inr ls) h') ->
  wp (mapM (fun b => alloc (OImage (mkImage L sz [b]))) bs) h Φ.
Proof.
  revert h Φ. induction bs as [|b bs IH]; intros h Φ HΦ; cbn [mapM].
  - apply wp_ret. by apply HΦ.
  - apply wp_bind, wp_alloc. intros l0 Hl0. apply wp_bind. apply IH.
    intros ls h' Hlen Hsub. apply wp_ret. apply HΦ; [cbn; by rewrite Hlen|].
    etrans; [|exact Hsub]. by apply insert_subseteq.
Qed.

(** X14: an image without an alpha band cannot be given an opacity: on a
    well-formed image that is not [RGBA] (it has fewer than four bands),
    [img.split()[3]] raises [IndexError]; the objects of the store, the
    image among them, are as they were. *)
Theorem to_opacity_needs_alpha_band l opacity h im :
  h !! l = Some (OImage im) -> wf_image im -> im_mode im <> RGBA ->
  (_to_opacity l opacity h).1 = inl IndexError /\ h ⊆ (_to_opacity l opacity h).2.
Proof.
  intros Hl (_ & _ & Hlen & _) Hmode.
  assert (length (im_bands im) < 4)%nat as Hfew.
  { rewrite Hlen. destruct (im_mode im); cbn; try lia. done. }
  change (wp (_to_opacity l opacity) h (fun r h' => r = inl IndexError /\ h ⊆ h')).
  unfold _to_opacity, Image_copy, Image_split, list_index.
  repeat wp_step. apply wp_split_bands. intros ls h' Hls Hsub.
  rewrite (proj2 (lookup_ge_None ls 3)) by lia. apply wp_bind, wp_raise.
  split; [done|]. etrans; [|exact Hsub]. by apply insert_subseteq.
Qed.

(** ** Construction *)

(** X15: the reference image must have an alpha channel: for a well-formed image
    that is not [RGBA], the unpacking [(r, g, b, a)] of its first pixel
    fails, with [TypeError] for a single-band image ([getpixel] returns an
    int) and with [ValueError] for an [RGB] image (three values). *)
Theorem cmap_from_image_needs_rgba path img hp :
  (forall im sz, length (resample im sz) = length (im_bands im)) ->
  files !! path = Some img -> wf_image img -> im_mode img <> RGBA ->
  1 <= im_height img ->
  (_cmap_from_image_path path hp).1 =
    inl (match im_mode img with L => TypeError | _ => ValueError end).
Proof.
  intros Hres Hfile (_ & _ & Hlen & _) Hmode Hh.
  set (r := resize img (256, im_height img)).
  assert (im_mode r = im_mode img /\ im_size r = (256, im_height img) /\
          length (im_bands r) = nbands (im_mode img)) as (Rmode & Rsize & Rbands).
  { unfold r, resize. case_decide as Hsz; cbn; [done|]. by rewrite Hres. }
  match goal with |- ?m.1 = ?e =>
    change (wp (_cmap_from_image_path path) hp (fun res _ => res = e)) end.
  unfold _cmap_from_image_path, Image_open, Image_resize. rewrite Hfile.
  repeat wp_step. fold r. change (seq 0 256) with (0%nat :: seq 1 255).
  cbn [mapM]. unfold Image_getpixel. repeat wp_step.
  unfold pixel_index. unfold im_width at 1. unfold im_height at 1.
  rewrite Rsize. cbn [fst snd].
  rewrite (proj2 (Z.ltb_lt 0 (im_height img))) by lia.
  change (Z.of_nat 0) with 0. change (0 <=? 0) with true. change (0 <? 256) with true.
  cbn [andb]. wp_step. unfold pixel_at, band. rewrite Rmode.
  destruct (im_mode img); [by unfold wp| |done].
  destruct (im_bands r) as [|c0 [|c1 [|c2 [|? ?]]]]; try discriminate.
  by unfold wp.
Qed.

Lemma os_path_join_nonempty d f : f <> "" -> String.eqb (os_path_join d f) "" = false.
Proof.
  intros Hf. unfold os_path_join. destruct d as [|a d].
  - cbn. by destruct (String.eqb_spec f "").
  - cbn -[String.substring String.length]. by case_match.
Qed.

(** X16: the two preset names are resolved in the directory of the module, not
    as paths: for ['default'] and ['reveal'] the constructor builds the
    colour map from [default.png] or [reveal.png] beside the module, and a
    file that happens to be at the path ['default'] or ['reveal'] is never
    opened. *)
Theorem preset_colours_resolve_beside_module point_diameter alpha_strength opacity name grey hp :
  name = "default" \/ name = "reveal" ->
  Heatmapper__init__ point_diameter alpha_strength opacity (ColoursStr name) grey hp =
    (let* cmap0 := _cmap_from_image_path (os_path_join module_dir (name +:+ ".png")) in
     alloc (OHeatmapper (mkHeatmapper opacity cmap0
              match grey with
              | GreyPySide =>
                  PySide (PySideGreyHeatmapper__init__ point_diameter alpha_strength)
              | GreyObject g => Custom g
              end))) hp.
Proof.
  intros Hname. unfold Heatmapper__init__.
  assert (py_or (preset_files !! name) name = os_path_join module_dir (name +:+ ".png"))
    as ->; [|done].
  unfold preset_files, local_file. destruct Hname as [-> | ->].
  - rewrite lookup_insert_eq. unfold py_or. by rewrite os_path_join_nonempty.
  - rewrite lookup_insert_ne by done. rewrite lookup_singleton_eq.
    unfold py_or. by rewrite os_path_join_nonempty.
Qed.

Lemma grows_cmap_from_image_path path : grows (_cmap_from_image_path path).
Proof.
  unfold _cmap_from_image_path.
  apply grows_bind; [apply allocates_grows, allocates_Image_open|]. intros l1.
  apply grows_bind; [apply grows_get_image|]. intros im.
  apply grows_bind.
  { apply grows_bind; [apply grows_get_image|]. intros im'. apply grows_alloc. }
  intros l2. apply grows_bind; [|intros; apply grows_ret].
  apply grows_mapM. intros x. apply grows_bind.
  - apply grows_bind; [apply grows_get_image|]. intros im'.
    case_match; [apply grows_ret|apply grows_raise].
  - intros px. unfold unpack4.
    repeat case_match; first [apply grows_ret | apply grows_raise].
Qed.

(** X17: construction only adds objects: whether it returns or raises, every
    object that was in the store is as it was (the images it opens are new
    objects), and the [Heatmapper] it returns is a new object. *)
Theorem construction_only_adds_objects point_diameter alpha_strength opacity colours grey hp :
  let r := Heatmapper__init__ point_diameter alpha_strength opacity colours grey hp in
  (forall l o, hp !! l = Some o -> r.2 !! l = Some o) /\
  (forall l, r.1 = inr l -> hp !! l = None /\ exists hm, r.2 !! l = Some (OHeatmapper hm)).
Proof.
  cbv zeta.
  assert (allocates (Heatmapper__init__ point_diameter alpha_strength opacity colours grey))
    as Halloc.
  { unfold Heatmapper__init__. apply allocates_bind.
    - destruct colours; [apply grows_cmap_from_image_path|apply grows_ret].
    - intros cm. apply allocates_alloc. }
  destruct (Halloc hp) as [Hsub Hnew]. split.
  - intros l o Hl. by eapply lookup_weaken.
  - intros l Hl. split; [by apply Hnew|].
    unfold Heatmapper__init__ in *. apply bind_result in Hl as (cm & h1 & Hrun & Hl).
    unfold bind. rewrite Hrun. injection Hl as <-. eexists. apply lookup_insert_eq.
Qed.

(** ** Compositing *)

Lemma composite_transparent (D S : list (Z * Z * Z * Z)) :
  length D = length S -> Forall (fun s => s.2 = 0) S ->
  zip_with composite_pixel D S = D.
Proof.
  revert S. induction D as [|d D IH]; intros [|s S] Hlen HS; try done.
  apply Forall_cons in HS as [Hs HS]. cbn [zip_with]. rewrite IH by (cbn in Hlen; lia || done).
  f_equal. destruct d as [[[dr dg] db] da], s as [[[sr sg] sb] sa]. cbn in Hs. subst sa.
  done.
Qed.

Lemma rgba_bands_zip4 (b0 b1 b2 b3 : list Z) :
  length b1 = length b0 -> length b2 = length b0 -> length b3 = length b0 ->
  rgba_bands (zip4 b0 b1 b2 b3) = [b0; b1; b2; b3].
Proof.
  revert b1 b2 b3. induction b0 as [|x0 b0 IH]; intros [|x1 b1] [|x2 b2] [|x3 b3];
    try done. cbn [length]. intros H1 H2 H3.
  specialize (IH b1 b2 b3 ltac:(lia) ltac:(lia) ltac:(lia)).
  unfold rgba_bands in *. cbn [zip4 map fst snd]. by injection IH as -> -> -> ->.
Qed.

Lemma zip4_maps {A} (f1 f2 f3 f4 : A -> Z) (l : list A) :
  zip4 (map f1 l) (map f2 l) (map f3 l) (map f4 l) = map (fun x => (f1 x, f2 x, f3 x, f4 x)) l.
Proof. induction l as [|x l IH]; [done|]. cbn. by rewrite IH. Qed.

Lemma zip4_length (b0 b1 b2 b3 : list Z) n :
  length b0 = n -> length b1 = n -> length b2 = n -> length b3 = n ->
  length (zip4 b0 b1 b2 b3) = n.
Proof.
  revert b1 b2 b3 n. induction b0 as [|x0 b0 IH]; intros [|x1 b1] [|x2 b2] [|x3 b3] n;
    cbn; intros; subst; try done. f_equal. apply IH; lia.
Qed.

(** The bands of a well-formed image converted to [RGBA]: four bands of
    the image's area. *)
Lemma convert_rgba_bands bg :
  wf_image bg ->
  exists c0 c1 c2 c3,
    im_bands (convert bg RGBA) = [c0; c1; c2; c3] /\
    length c0 = im_area bg /\ length c1 = im_area bg /\
    length c2 = im_area bg /\ length c3 = im_area bg.
Proof.
  intros (_ & _ & Hlen & Hall). unfold convert. cbn [im_bands].
  destruct (im_mode bg); cbn in Hlen;
    destruct (im_bands bg) as [|b0 [|b1 [|b2 [|b3 [|? ?]]]]]; try discriminate;
    repeat (apply Forall_cons in Hall as [[? _] Hall]); cbn;
    eexists _, _, _, _; (split; [reflexivity|]); rewrite ?length_map; done.
Qed.

(** Pixels of the overlay of an empty list of points: every alpha is 0. *)
Lemma overlay_no_points_transparent hm g w h :
  0 < w -> 0 < h -> (zero_density_alpha (cmap hm) == 0)%Q ->
  length (rgba_pixels (overlay hm g w h [])) = Z.to_nat (w * h) /\
  Forall (fun s => s.2 = 0) (rgba_pixels (overlay hm g w h [])).
Proof.
  intros Hw Hh Hzero. unfold overlay. rewrite no_points_canvas by done.
  unfold rgba_pixels, with_opacity, colourised, band. cbn [im_bands nth rgba_bands].
  rewrite (map_map _ (opacity_alpha (_opacity hm))). rewrite zip4_maps. split.
  - by rewrite !length_map, repeat_length.
  - apply Forall_map, Forall_map, List.Forall_forall. intros x Hx.
    apply repeat_spec in Hx. subst x. cbn.
    rewrite cmap_bytes_alpha. fold (zero_density_alpha (cmap hm)).
    unfold to_uint8. rewrite py_int_zero; [apply opacity_alpha_zero|].
    rewrite Hzero. ring.
Qed.

(** X8: no points, no change: when the colour for zero density has alpha 0,
    a heat map of an empty list of points over a background of the canvas
    size is the background itself (converted to [RGBA]), as a new object. *)
Theorem no_points_leave_background self hm g w h bi bg hp :
  hp !! self = Some (OHeatmapper hm) -> grey_heatmapper hm = PySide g ->
  0 < w -> 0 < h -> (zero_density_alpha (cmap hm) == 0)%Q ->
  hp !! bi = Some (OImage bg) -> wf_image bg -> im_size bg = (w, h) ->
  exists l hp',
    heatmap self w h [] None (Some bi) hp = (inr l, hp') /\
    hp' !! l = Some (OImage (convert bg RGBA)) /\ hp !! l = None /\
    hp' !! bi = Some (OImage bg).
Proof.
  intros Hself Hgrey Hw Hh Hzero Hbi Hwf Hsize.
  destruct (wp_run (heatmap self w h [] None (Some bi)) hp
    (fun r hp' => exists l, r = inr l /\ hp' !! l = Some (OImage (convert bg RGBA)) /\
       hp !! l = None /\ hp' !! bi = Some (OImage bg)))
    as (r & hp' & Hrun & l & -> & Hres); [|eauto].
  eapply heatmap_wp; [done..|]. intros lo hp1 Hnew Hsub Hlo.
  assert (hp1 !! bi = Some (OImage bg)) as Hbi1 by (by eapply lookup_weaken).
  unfold compose_background. cbn [truthy orb].
  rewrite bool_decide_eq_true_2 by eauto. cbn [negb].
  unfold Image_convert, Image_alpha_composite. repeat wp_step.
  cbn [convert im_mode im_size].
  rewrite bool_decide_eq_true_2 by done. cbn [negb].
  rewrite bool_decide_eq_true_2 by (by rewrite Hsize). cbn [negb].
  repeat wp_step. eexists. split; [done|]. split; [|split].
  - rewrite lookup_insert_eq. do 2 f_equal. unfold convert. f_equal.
    destruct (convert_rgba_bands bg Hwf) as (c0 & c1 & c2 & c3 & Hb & L0 & L1 & L2 & L3).
    destruct (overlay_no_points_transparent hm g w h Hw Hh Hzero) as [Hlen Htrans].
    unfold convert in Hb. cbn [im_bands] in Hb.
    unfold rgba_pixels at 1, band. cbn [im_bands]. rewrite Hb. cbn [nth].
    rewrite composite_transparent; [|by rewrite Hlen;
      apply zip4_length; unfold im_area, im_width, im_height in *; rewrite Hsize in *|done].
    apply rgba_bands_zip4; congruence.
  - by eapply lookup_weaken_None.
  - rewrite !lookup_insert_ne by congruence. done.
Qed.

(** ** A rasterizer of the caller's *)

(** X6: a grey heatmapper supplied by the caller is used as it is: when it
    raises, [heatmap] raises the same error at once; when it returns a
    well-formed single-band image, the heat map returned without
    background has that image's size, whatever width and height were
    asked for. *)
Theorem custom_rasterizer_is_used_as_is self hm rasterize w h pts hp :
  hp !! self = Some (OHeatmapper hm) -> grey_heatmapper hm = Custom rasterize ->
  (forall e, rasterize w h pts = inl e ->
     forall bp bi, heatmap self w h pts bp bi hp = (inl e, hp)) /\
  (forall grey, rasterize w h pts = inr grey -> wf_image grey -> im_mode grey = L ->
     exists l hp' im,
       heatmap self w h pts None None hp = (inr l, hp') /\
       hp' !! l = Some (OImage im) /\ hp !! l = None /\
       im_mode im = RGBA /\ im_size im = im_size grey).
Proof.
  intros Hself Hgrey. split.
  - intros e Hr bp bi. rewrite heatmap_unfold. unfold bind at 1, get_heatmapper.
    rewrite Hself, Hgrey. unfold bind at 1. cbn [GreyHeatMapper_heatmap]. by rewrite Hr.
  - intros grey Hr Hwf Hmode.
    destruct (wp_run (heatmap self w h pts None None) hp
      (fun r hp' => exists l im, r = inr l /\ hp' !! l = Some (OImage im) /\
         hp !! l = None /\ im_mode im = RGBA /\ im_size im = im_size grey))
      as (r & hp' & Hrun & l & im & -> & Hres); [|by exists l, hp', im].
    rewrite heatmap_unfold. repeat wp_step. rewrite Hgrey.
    cbn [GreyHeatMapper_heatmap]. rewrite Hr. wp_step.
    assert (exists gw gh gb, grey = mkImage L (gw, gh) [gb] /\ 0 <= gw /\ 0 <= gh /\
              length gb = Z.to_nat (gw * gh)) as (gw & gh & gb & -> & Hgw & Hgh & Hgb).
    { destruct grey as [m [gw gh] bs]. cbn in Hmode. subst m.
      destruct Hwf as (Hw0 & Hh0 & Hlen & Hall). cbn in *.
      destruct bs as [|gb [|? ?]]; try discriminate.
      apply Forall_cons in Hall as [[Hl _] _]. by exists gw, gh, gb. }
    wp_step. eapply colourise_wp; [heap_lookup|heap_lookup|].
    intros l2 h2 F2 S2 L2.
    wp_step. eapply wp_get_heatmapper.
    { eapply lookup_weaken; [|exact S2]. heap_lookup. }
    wp_step. eapply to_opacity_wp; [done|by apply colourised_wf|done|].
    intros l3 h3 F3 S3 L3. unfold compose_background. cbn. apply wp_ret.
    eexists l3, _. split; [done|]. split; [done|]. split; [|done].
    eapply lookup_weaken_None; [exact F3|]. etrans; [|exact S2].
    by apply insert_subseteq.
Qed.

(** ** The background arguments *)

(** An empty [base_path] counts as no path: the call is the call without
    [base_path], so a [base_img] given with it is used, and without one
    the heat map alone is returned; no file is opened. *)
Lemma empty_base_path_is_no_path self w h pts bi hp :
  heatmap self w h pts (Some "") bi hp = heatmap self w h pts None bi hp.
Proof. reflexivity. Qed.

(** X7: a (non-empty) [base_path] with no readable image fails with the
    [OSError] of [Image.open], also when a [base_img] is given with it;
    the objects of the store are as they were. *)
Theorem unreadable_base_path_fails self hm g w h pts path bi hp :
  hp !! self = Some (OHeatmapper hm) -> grey_heatmapper hm = PySide g ->
  0 < w -> 0 < h -> path <> "" -> files !! path = None ->
  (heatmap self w h pts (Some path) bi hp).1 = inl OSError /\
  hp ⊆ (heatmap self w h pts (Some path) bi hp).2.
Proof.
  intros Hself Hgrey Hw Hh Hpath Hmissing.
  change (wp (heatmap self w h pts (Some path) bi) hp
            (fun r hp' => r = inl OSError /\ hp ⊆ hp')).
  eapply heatmap_wp; [done..|]. intros l hp1 Hnew Hsub Hl.
  unfold compose_background.
  assert (truthy (Some path) = true) as ->.
  { cbn. by destruct (String.eqb_spec path ""). }
  cbn [orb negb]. change (default "" (Some path)) with path.
  unfold Image_open. rewrite Hmissing. by apply wp_bind, wp_raise.
Qed.

(** ** The pipeline, pixel by pixel *)


End Heatmappy.

(** * The concrete instances meet what the theorems assume *)

Lemma box_brush_byte aa g r x y : is_byte (box_brush aa g r x y).
Proof.
  unfold box_brush, is_byte. destruct r as [[[rx ry] rw] rh].
  repeat case_match; lia.
Qed.

Lemma nearest_resample_bands im sz :
  length (nearest_resample im sz) = length (im_bands im).
Proof. unfold nearest_resample. destruct sz as [w h]. by rewrite length_map. Qed.

(** * Examples *)


Lemma background_size_mismatch_fails_witness :
  (heatmap demo_files box_brush 1%positive 3 3 [(1, 1)%Q] None (Some 2%positive)
     demo_heap).1 = inl ValueError.
Proof.
  apply (background_size_mismatch_fails demo_files box_brush 1%positive
           demo_heatmapper (PySideGreyHeatmapper__init__ 50 (1 # 5)) 3 3 [(1, 1)%Q]
           None (Some 2%positive) bg_png demo_heap);
    [reflexivity | reflexivity | lia | lia | reflexivity | discriminate].
Defined.

Lemma no_points_is_transparent_witness :
  (exists lg hg,
     PySideGreyHeatmapper_heatmap box_brush (PySideGreyHeatmapper__init__ 50 (1 # 5))
       3 2 [] demo_heap = (inr lg, hg) /\
     hg !! lg = Some (OImage (mkImage L (3, 2) [repeat 255 (Z.to_nat (3 * 2))]))) /\
  (exists l hp' im,
     heatmap demo_files box_brush 1%positive 3 2 [] None None demo_heap = (inr l, hp') /\
     hp' !! l = Some (OImage im) /\ im_mode im = RGBA /\ im_size im = (3, 2) /\
     band im 3 = repeat 0 (Z.to_nat (3 * 2))).
Proof.
  apply (no_points_is_transparent demo_files box_brush 1%positive demo_heatmapper
           (PySideGreyHeatmapper__init__ 50 (1 # 5)) 3 2 demo_heap);
    [reflexivity | reflexivity | lia | lia | vm_compute; reflexivity].
Defined.




Lemma two_points_never_lighter_witness :
  exists l1 h1 l2 h2 g1 g2,
    PySideGreyHeatmapper_heatmap box_brush (PySideGreyHeatmapper__init__ 2 (1 # 5))
      3 2 [(1, 1)%Q] ∅ = (inr l1, h1) /\
    h1 !! l1 = Some (OImage (mkImage L (3, 2) [g1])) /\
    PySideGreyHeatmapper_heatmap box_brush (PySideGreyHeatmapper__init__ 2 (1 # 5))
      3 2 [(1, 1)%Q; (1, 1)%Q] ∅ = (inr l2, h2) /\
    h2 !! l2 = Some (OImage (mkImage L (3, 2) [g2])) /\
    length g1 = Z.to_nat (3 * 2) /\
    Forall2 Z.le g2 g1 /\ Forall is_byte g2.
Proof.
  apply (two_points_never_lighter box_brush (PySideGreyHeatmapper__init__ 2 (1 # 5))
           3 2 (1, 1)%Q ∅); [apply box_brush_byte | lia | lia].
Defined.

Lemma unknown_colours_is_a_path_witness :
  Heatmapper__init__ demo_files "/pkg" nearest_resample 50 (1 # 5) (65 # 100)
    (ColoursStr "defualt") GreyPySide ∅ = (inl OSError, ∅).
Proof.
  apply (unknown_colours_is_a_path demo_files "/pkg" nearest_resample 50 (1 # 5)
           (65 # 100) "defualt" GreyPySide ∅); [discriminate | discriminate | reflexivity].
Defined.


(** * Examples for the further properties *)

Lemma heatmap_alone_returns_overlay_witness :
  exists l hp' im,
    heatmap demo_files box_brush 1%positive 3 2 [(1, 1)%Q] None None demo_heap = (inr l, hp') /\
    hp' !! l = Some (OImage im) /\ demo_heap !! l = None /\
    wf_image im /\ im_mode im = RGBA /\ im_size im = (3, 2).
Proof.
  eapply heatmap_alone_returns_overlay with (hm := demo_heatmapper);
    [reflexivity | reflexivity | lia | lia].
Defined.

Lemma heatmap_on_img_fits_witness :
  exists l hp' im,
    heatmap_on_img demo_files box_brush 1%positive [(1, 1)%Q] 2%positive demo_heap
      = (inr l, hp') /\
    hp' !! l = Some (OImage im) /\ demo_heap !! l = None /\
    im_mode im = RGBA /\ im_size im = im_size bg_png /\
    hp' !! 2%positive = Some (OImage bg_png).
Proof.
  eapply heatmap_on_img_fits with (hm := demo_heatmapper) (bg := bg_png);
    [reflexivity | reflexivity | reflexivity | done | done].
Defined.

Lemma heatmap_on_missing_path_fails_witness :
  heatmap_on_base_path demo_files box_brush 1%positive [(1, 1)%Q] "nowhere.png" demo_heap
    = (inl OSError, demo_heap).
Proof. apply heatmap_on_missing_path_fails. reflexivity. Defined.

Lemma heatmap_on_base_path_fits_witness :
  exists l hp' im,
    heatmap_on_base_path demo_files box_brush 1%positive [(1, 1)%Q] "bg.png" demo_heap
      = (inr l, hp') /\
    hp' !! l = Some (OImage im) /\ demo_heap !! l = None /\
    im_mode im = RGBA /\ im_size im = im_size bg_png.
Proof.
  eapply heatmap_on_base_path_fits with (hm := demo_heatmapper) (bg := bg_png);
    [reflexivity | reflexivity | discriminate | reflexivity | done | done].
Defined.

Lemma more_points_never_lighter_witness :
  exists l1 h1 l2 h2 g1 g2,
    PySideGreyHeatmapper_heatmap box_brush (PySideGreyHeatmapper__init__ 2 (1 # 5))
      3 2 [(1, 1)%Q] ∅ = (inr l1, h1) /\
    h1 !! l1 = Some (OImage (mkImage L (3, 2) [g1])) /\
    PySideGreyHeatmapper_heatmap box_brush (PySideGreyHeatmapper__init__ 2 (1 # 5))
      3 2 ([(1, 1)%Q] ++ [(0, 0)%Q; (2, 1)%Q]) ∅ = (inr l2, h2) /\
    h2 !! l2 = Some (OImage (mkImage L (3, 2) [g2])) /\
    Forall2 Z.le g2 g1.
Proof.
  apply more_points_never_lighter; [apply box_brush_byte | lia | lia].
Defined.

Lemma grey_field_is_well_formed_witness :
  exists l hp' im,
    PySideGreyHeatmapper_heatmap box_brush (PySideGreyHeatmapper__init__ 2 (1 # 5))
      3 2 [(1, 1)%Q] demo_heap = (inr l, hp') /\
    hp' !! l = Some (OImage im) /\ demo_heap !! l = None /\ demo_heap ⊆ hp' /\
    im_mode im = L /\ im_size im = (3, 2) /\ wf_image im.
Proof.
  apply grey_field_is_well_formed; [apply box_brush_byte | lia | lia].
Defined.

Lemma nonpositive_strength_is_zero_strength_witness :
  PySideGreyHeatmapper_heatmap box_brush (PySideGreyHeatmapper__init__ 2 (- (1 # 2)))
    3 2 [(1, 1)%Q] ∅ =
  PySideGreyHeatmapper_heatmap box_brush (PySideGreyHeatmapper__init__ 2 0)
    3 2 [(1, 1)%Q] ∅.
Proof. apply nonpositive_strength_is_zero_strength. discriminate. Defined.

Lemma strength_is_a_byte_witness :
  dm (PySideGreyHeatmapper__init__ 50 (1 # 5)) = 50%Q /\
  0 <= point_strength (PySideGreyHeatmapper__init__ 50 (1 # 5))
    <= point_strength (PySideGreyHeatmapper__init__ 50 (1 # 2)) /\
  point_strength (PySideGreyHeatmapper__init__ 50 (1 # 2)) <= 255.
Proof.
  apply (strength_is_a_byte 50 (1 # 5) (1 # 2)); [split; discriminate | discriminate].
Defined.


Lemma to_opacity_needs_alpha_band_witness :
  (_to_opacity 2%positive (1 # 2) demo_heap).1 = inl IndexError /\
  demo_heap ⊆ (_to_opacity 2%positive (1 # 2) demo_heap).2.
Proof.
  apply (to_opacity_needs_alpha_band 2%positive (1 # 2) demo_heap bg_png);
    [reflexivity | compute_done | discriminate].
Defined.

Lemma cmap_from_image_needs_rgba_witness :
  (_cmap_from_image_path demo_files nearest_resample "bg.png" ∅).1 = inl ValueError.
Proof.
  apply (cmap_from_image_needs_rgba demo_files nearest_resample "bg.png" bg_png ∅);
    [apply nearest_resample_bands | reflexivity | compute_done | discriminate
    | unfold im_height; cbn; lia].
Defined.

Lemma preset_colours_resolve_beside_module_witness :
  Heatmapper__init__ demo_files "/pkg" nearest_resample 50 (1 # 5) (65 # 100)
    (ColoursStr "reveal") GreyPySide ∅ =
  (let* cmap0 := _cmap_from_image_path demo_files nearest_resample
                   (os_path_join "/pkg" ("reveal" +:+ ".png")) in
   alloc (OHeatmapper (mkHeatmapper (65 # 100) cmap0
            (PySide (PySideGreyHeatmapper__init__ 50 (1 # 5)))))) ∅.
Proof.
  apply (preset_colours_resolve_beside_module demo_files "/pkg" nearest_resample
           50 (1 # 5) (65 # 100) "reveal" GreyPySide ∅). by right.
Defined.

Lemma no_points_leave_background_witness :
  exists l hp',
    heatmap demo_files box_brush 1%positive 2 2 [] None (Some 2%positive) demo_heap
      = (inr l, hp') /\
    hp' !! l = Some (OImage (convert bg_png RGBA)) /\ demo_heap !! l = None /\
    hp' !! 2%positive = Some (OImage bg_png).
Proof.
  eapply no_points_leave_background with (hm := demo_heatmapper);
    [reflexivity | reflexivity | lia | lia | vm_compute; reflexivity | reflexivity
    | compute_done | reflexivity].
Defined.

Lemma custom_rasterizer_is_used_as_is_witness :
  (forall e, one_pixel_rasterizer 10 10 [(1, 1)%Q] = inl e ->
     forall bp bi,
       heatmap demo_files box_brush 1%positive 10 10 [(1, 1)%Q] bp bi custom_heap
         = (inl e, custom_heap)) /\
  (forall grey, one_pixel_rasterizer 10 10 [(1, 1)%Q] = inr grey ->
     wf_image grey -> im_mode grey = L ->
     exists l hp' im,
       heatmap demo_files box_brush 1%positive 10 10 [(1, 1)%Q] None None custom_heap
         = (inr l, hp') /\
       hp' !! l = Some (OImage im) /\ custom_heap !! l = None /\
       im_mode im = RGBA /\ im_size im = im_size grey).
Proof.
  eapply custom_rasterizer_is_used_as_is; reflexivity.
Defined.

Lemma unreadable_base_path_fails_witness :
  (heatmap demo_files box_brush 1%positive 2 2 [(1, 1)%Q] (Some "nowhere.png")
     (Some 2%positive) demo_heap).1 = inl OSError /\
  demo_heap ⊆ (heatmap demo_files box_brush 1%positive 2 2 [(1, 1)%Q] (Some "nowhere.png")
                 (Some 2%positive) demo_heap).2.
Proof.
  eapply unreadable_base_path_fails with (hm := demo_heatmapper);
    [reflexivity | reflexivity | lia | lia | discriminate | reflexivity].
Defined.

